(** * google_scraper.py: a model of the scraping loop and its properties

    The script walks the result pages of an image search, writes one CSV
    row per image found and downloads the image next to the CSV file.

    The model is a shallow embedding.  Everything the script does to the
    outside (HTTP requests, sleeping, printing, the file system, the CSV
    writer) goes through a small state-and-exception monad [M] over a
    [World]; Python exceptions are the [Raise] results of that monad.
    The libraries the script calls are taken as they are: the SHA-1 digest
    and the BeautifulSoup parser are section variables, the network is an
    oracle telling what the n-th request of the run answers.

    A Python string is the sequence of the bytes of its UTF-8 encoding.
    A path names what the file system holds under it as it is written:
    ["."], [".."], doubled or trailing separators and links are not
    resolved. *)

From Stdlib Require Import String Ascii List Arith Lia Bool.
From stdpp Require Import base gmap strings list pretty.

Local Open Scope string_scope.
Local Open Scope list_scope.
Local Open Scope nat_scope.

(** ** Strings *)

(** The newline character of the Python literals ["\n..."]. *)
Definition nl : string := String (ascii_of_nat 10) EmptyString.

(** A byte [10xxxxxx]: in UTF-8 it continues the character begun before. *)
Definition is_continuation (c : ascii) : bool :=
  match c with Ascii _ _ _ _ _ _ b6 b7 => b7 && negb b6 end.

(** The string from its next character on. *)
Fixpoint skip_continuation (s : string) : string :=
  match s with
  | EmptyString => EmptyString
  | String c s' => if is_continuation c then skip_continuation s' else s
  end.

(** [s[n:]] on a Python string: [n] characters are dropped, each of them
    its first byte and the bytes that continue it. *)
Fixpoint str_drop (n : nat) (s : string) {struct n} : string :=
  match n with
  | 0 => s
  | S n' =>
      match s with
      | EmptyString => EmptyString
      | String _ s' => str_drop n' (skip_continuation s')
      end
  end.

(** [s.split(sep, 1)[0]] for a non-empty [sep]: the part of [s] before the
    first occurrence of [sep], all of [s] when [sep] does not occur. *)
Fixpoint split1_head (sep s : string) : string :=
  if String.prefix sep s then EmptyString
  else match s with
       | EmptyString => EmptyString
       | String c s' => String c (split1_head sep s')
       end.

(** [s.startswith("/")] and [s.endswith("/")]. *)
Definition starts_with_sep (s : string) : bool := String.prefix "/" s.

Fixpoint ends_with_sep (s : string) : bool :=
  match s with
  | EmptyString => false
  | String c EmptyString => Ascii.eqb c "/"
  | String _ s' => ends_with_sep s'
  end.

(** [os.path.join(a, b)] of posixpath, for two components. *)
Definition os_path_join (a b : string) : string :=
  if starts_with_sep b then b
  else if (String.eqb a "" || ends_with_sep a)%bool then a +:+ b
  else a +:+ "/" +:+ b.

(** [s.rstrip("/")]. *)
Fixpoint rstrip_sep (s : string) : string :=
  match s with
  | EmptyString => EmptyString
  | String c s' =>
      match rstrip_sep s' with
      | EmptyString => if Ascii.eqb c "/" then EmptyString else String c EmptyString
      | r => String c r
      end
  end.

(** [p[:p.rfind("/") + 1]]: [p] up to its last separator, the separator
    included; empty when [p] has none. *)
Fixpoint upto_last_sep (p : string) : string :=
  match p with
  | EmptyString => EmptyString
  | String c p' =>
      match upto_last_sep p' with
      | EmptyString => if Ascii.eqb c "/" then String c EmptyString else EmptyString
      | head => String c head
      end
  end.

(** [os.path.dirname(p)] of posixpath: the head without its trailing
    separators, unless it is made of separators only. *)
Definition os_path_dirname (p : string) : string :=
  let head := upto_last_sep p in
  if String.eqb (rstrip_sep head) "" then head else rstrip_sep head.

(** The directory in which [p] is an entry: the head of
    [os.path.split(p)], taken again when [p] ends with a separator, as
    [os.makedirs] does.  It is empty for an entry of the current directory. *)
Definition parent_path (p : string) : string := os_path_dirname (rstrip_sep p).

(** ["/" in s]. *)
Fixpoint has_sep (s : string) : bool :=
  match s with
  | EmptyString => false
  | String c s' => Ascii.eqb c "/" || has_sep s'
  end.

(** [os.path.basename(p)] of posixpath: [p[p.rfind("/") + 1:]]. *)
Fixpoint os_path_basename (p : string) : string :=
  match p with
  | EmptyString => EmptyString
  | String _ p' => if has_sep p then os_path_basename p' else p
  end.

(** ** Data *)

Definition bytes := list Byte.byte.

(** The exceptions that the modelled code can meet. *)
Inductive exn :=
| TypeError            (* subscripting None *)
| KeyError             (* a tag without the attribute asked for *)
| AttributeError       (* output_csv is still the string it was initialised to *)
| UnboundLocalError    (* a local variable read before any assignment *)
| RequestException     (* anything requests.get raises *)
| FileNotFoundError
| FileExistsError
| IsADirectoryError
| NotADirectoryError
| SystemExit.          (* sys.exit() without argument *)

(** [except Exception] catches every exception but [SystemExit]. *)
Definition is_Exception (e : exn) : bool :=
  match e with SystemExit => false | _ => true end.

(** One row of the CSV file, keyed as the script's [row] dictionary. *)
Record Row := mkRow {
  rank_pos : nat;
  image_url : string;
  image_info_url : string;
  download_file : string
}.

(** One entry of [images_list]. *)
Record Image := mkImage {
  img_image_url : string;
  img_image_info_url : string
}.

(** What the script reads of a parsed page.  A tag is its attribute
    dictionary; of a result container only [element.img] and [element.a]
    are read (each is [None] when the container has no such descendant);
    of the page only the containers [find_all("div", class lIMUZd)] and the
    anchor [find("a", class frGj1b)]. *)
Record Tag := mkTag { tag_attrs : gmap string string }.

Record Element := mkElement {
  element_img : option Tag;
  element_a : option Tag
}.

Record Soup := mkSoup {
  find_all_div_lIMUZd : list Element;
  find_a_frGj1b : option Tag
}.

(** ** The world *)

Inductive node := File (content : bytes) | Dir.

Inductive event :=
| EvPrint (s : string)
| EvSleep (seconds : nat)
| EvGet (url : string)
| EvMakedirs (path : string)
| EvOpen (path : string)
| EvWriteHeader (fields : list string)
| EvWriteRow (r : Row)
| EvWriteFile (path : string) (content : bytes).

(** The file system maps the paths that exist to what they are; a file or
    a directory is only made in a directory that is there.  [clock]
    counts the HTTP requests issued so far, [log] lists every effect, oldest
    first.  [output_folder] and [output_csv] are the two module globals;
    [output_csv] is [None] as long as it is not a [csv.DictWriter], and then
    holds the rows written through it. *)
Record World := mkWorld {
  fs : gmap string node;
  clock : nat;
  log : list event;
  output_folder : string;
  output_csv : option (list Row)
}.

Definition initial_world (files : gmap string node) : World :=
  mkWorld files 0 [] "" None.

Definition rows_written (w : World) : list Row :=
  match output_csv w with Some rows => rows | None => [] end.

Definition emit (e : event) (w : World) : World :=
  mkWorld (fs w) (clock w) (log w ++ [e]) (output_folder w) (output_csv w).

Definition tick (w : World) : World :=
  mkWorld (fs w) (S (clock w)) (log w) (output_folder w) (output_csv w).

Definition set_fs (f : gmap string node) (w : World) : World :=
  mkWorld f (clock w) (log w) (output_folder w) (output_csv w).

Definition set_output_folder (d : string) (w : World) : World :=
  mkWorld (fs w) (clock w) (log w) d (output_csv w).

Definition set_output_csv (c : option (list Row)) (w : World) : World :=
  mkWorld (fs w) (clock w) (log w) (output_folder w) c.

(** ** The monad *)

Inductive result (A : Type) :=
| Ok (a : A)
| Raise (e : exn)
| OutOfFuel.
Arguments Ok {A} a.
Arguments Raise {A} e.
Arguments OutOfFuel {A}.

Definition M (A : Type) : Type := World -> result A * World.

Definition ret {A} (a : A) : M A := fun w => (Ok a, w).

Definition raise {A} (e : exn) : M A := fun w => (Raise e, w).

Definition out_of_fuel {A} : M A := fun w => (OutOfFuel, w).

Definition bind {A B} (m : M A) (k : A -> M B) : M B :=
  fun w =>
    match m w with
    | (Ok a, w') => k a w'
    | (Raise e, w') => (Raise e, w')
    | (OutOfFuel, w') => (OutOfFuel, w')
    end.

(** [try: m  except Exception: h]. *)
Definition try_except {A} (m : M A) (h : M A) : M A :=
  fun w =>
    match m w with
    | (Raise e, w') => if is_Exception e then h w' else (Raise e, w')
    | other => other
    end.

Declare Scope py_scope.
Delimit Scope py_scope with py.
Notation "x <- m ;; k" := (bind m (fun x => k))
  (at level 100, m at next level, right associativity) : py_scope.
Notation "m ;;; k" := (bind m (fun _ => k))
  (at level 100, right associativity) : py_scope.
Local Open Scope py_scope.

(** The exit status of the process, when it ends. *)
Definition exit_status {A} (r : result A) : option nat :=
  match r with
  | Ok _ => Some 0
  | Raise SystemExit => Some 0
  | Raise _ => Some 1
  | OutOfFuel => None
  end.

(** ** Primitives *)

Definition output_csv_fields : list string :=
  ["rank_pos"; "image_url"; "image_info_url"; "download_file"].

(** [print] writes the text it is given here, which is the whole of what
    the call writes: the argument of the Python call followed by its [end],
    the newline unless the call sets it. *)
Definition print (s : string) : M unit :=
  fun w => (Ok tt, emit (EvPrint s) w).

Definition time_sleep (seconds : nat) : M unit :=
  fun w => (Ok tt, emit (EvSleep seconds) w).

(** The node a path names: the empty path names nothing, a path made of
    separators only names the root directory. *)
Definition stat (files : gmap string node) (p : string) : option node :=
  if String.eqb p "" then None
  else if String.eqb (rstrip_sep p) "" then Some Dir
  else files !! p.

(** The node that the directory of [p] names; the directory of an entry of
    the current directory is there. *)
Definition stat_parent (files : gmap string node) (p : string) : option node :=
  let d := parent_path p in
  if String.eqb d "" then Some Dir else stat files d.

(** What [os.path.isfile], [os.path.isdir] and [os.path.exists] answer on
    a given file system. *)
Definition is_file (files : gmap string node) (p : string) : bool :=
  match stat files p with Some (File _) => true | _ => false end.

Definition is_dir (files : gmap string node) (p : string) : bool :=
  match stat files p with Some Dir => true | _ => false end.

Definition path_exists (files : gmap string node) (p : string) : bool :=
  match stat files p with Some _ => true | None => false end.

Definition os_path_isfile (p : string) : M bool :=
  fun w => (Ok (is_file (fs w) p), w).

Definition os_path_isdir (p : string) : M bool :=
  fun w => (Ok (is_dir (fs w) p), w).

Definition os_path_exists (p : string) : M bool :=
  fun w => (Ok (path_exists (fs w) p), w).

(** [os.mkdir(p)]: the empty path and a path that exists are errors, and
    so is a path whose directory is missing or is a file. *)
Definition os_mkdir (p : string) : M unit :=
  fun w =>
    if String.eqb p "" then (Raise FileNotFoundError, w)
    else match stat (fs w) p with
         | Some _ => (Raise FileExistsError, w)
         | None =>
             match stat_parent (fs w) p with
             | Some Dir => (Ok tt, emit (EvMakedirs p) (set_fs (<[p := Dir]> (fs w)) w))
             | Some (File _) => (Raise NotADirectoryError, w)
             | None => (Raise FileNotFoundError, w)
             end
         end.

(** The first part of [os.makedirs(name)]: when the directory of [name]
    does not exist, it is made by [os.makedirs] itself, that is, after the
    directories above it.  [fuel] bounds the depth; the directory of a path
    is shorter than the path, so its length is enough. *)
Fixpoint makedirs_heads (fuel : nat) (name : string) : M unit :=
  match fuel with
  | 0 => ret tt
  | S fuel' =>
      let head := parent_path name in
      if String.eqb head "" then ret tt
      else
        there <- os_path_exists head ;;
        if there then ret tt
        else (makedirs_heads fuel' head ;;; os_mkdir head)
  end.

(** [os.makedirs(p)]: the missing directories above [p] are made, then
    [p] itself.  The empty path and a path that exists are errors; a path
    that exists has its directories, nothing is made for it. *)
Definition os_makedirs (p : string) : M unit :=
  fun w =>
    if String.eqb p "" then (Raise FileNotFoundError, w)
    else match stat (fs w) p with
         | Some _ => (Raise FileExistsError, w)
         | None => (makedirs_heads (String.length p) p ;;; os_mkdir p) w
         end.

(** Opening [p] for writing and leaving [content] in it: a file is
    replaced, and a file is created where nothing is and the directory of
    [p] is there.  The empty path, a directory, and a directory of [p] that
    is missing or is a file are errors. *)
Definition create_file (p : string) (content : bytes) (e : event) : M unit :=
  fun w =>
    if String.eqb p "" then (Raise FileNotFoundError, w)
    else match stat (fs w) p with
         | Some Dir => (Raise IsADirectoryError, w)
         | Some (File _) => (Ok tt, emit e (set_fs (<[p := File content]> (fs w)) w))
         | None =>
             match stat_parent (fs w) p with
             | Some Dir => (Ok tt, emit e (set_fs (<[p := File content]> (fs w)) w))
             | Some (File _) => (Raise NotADirectoryError, w)
             | None => (Raise FileNotFoundError, w)
             end
         end.

(** [open(p, 'w', encoding="utf-8")]. *)
Definition open_w (p : string) : M unit := create_file p [] (EvOpen p).

(** [open(p, "wb").write(content)]. *)
Definition write_wb (p : string) (content : bytes) : M unit :=
  create_file p content (EvWriteFile p content).

(** [tag[key]], where [tag] may be [None]. *)
Definition getitem (tag : option Tag) (key : string) : M string :=
  match tag with
  | None => raise TypeError
  | Some t => match tag_attrs t !! key with
              | Some v => ret v
              | None => raise KeyError
              end
  end.

(** Reading a local variable that may not have been assigned yet. *)
Definition load_local {A} (v : option A) : M A :=
  match v with
  | Some a => ret a
  | None => raise UnboundLocalError
  end.

(** Reading and assigning the global [output_folder]. *)
Definition global_output_folder : M string :=
  fun w => (Ok (output_folder w), w).

Definition assign_output_folder (d : string) : M unit :=
  fun w => (Ok tt, set_output_folder d w).

(** [output_csv = csv.DictWriter(output_csv_f, fieldnames=...)]: a writer
    through which nothing has been written yet. *)
Definition assign_output_csv : M unit :=
  fun w => (Ok tt, set_output_csv (Some []) w).

(** [output_csv.writeheader()], called on the writer just made. *)
Definition writeheader : M unit :=
  fun w => (Ok tt, emit (EvWriteHeader output_csv_fields) w).

(** [output_csv.writerow(row)]. *)
Definition writerow (row : Row) : M unit :=
  fun w =>
    match output_csv w with
    | None => (Raise AttributeError, w)
    | Some rows => (Ok tt, emit (EvWriteRow row) (set_output_csv (Some (rows ++ [row])) w))
    end.

(** ** Module level *)

(** Total number of images to download. *)
Definition max_images : nat := 50.

(** The query term: ["puppy"], or the first command line argument. *)
Definition query_of_argv (argv : list string) : string :=
  if 1 <? length argv then nth 1 argv "puppy" else "puppy".

Definition query_url (term : string) : string :=
  let url_opening := "https://www.google.com/search?q=" in
  let url_ending :=
    "&source=lnms&tbm=isch&sa=X&ved=2ahUKEwie6f-DgLPsAhX0KLkGHd8HAvgQ_AUoA3oECBQQBQ&biw=1280&bih=726" in
  url_opening +:+ term +:+ url_ending.

Section Program.

(** [hashlib.sha1(s.encode('utf-8')).hexdigest()]. *)
Variable sha1_hexdigest : string -> string.

(** [BeautifulSoup(page, "html.parser")]. *)
Variable BeautifulSoup : bytes -> Soup.

(** What the request number [n] of the run, to the address [url], answers:
    the content of the response, or [None] when [requests.get] raises. *)
Variable net : nat -> string -> option bytes.

(** The module global [query]. *)
Variable query : string.

(** [requests.get(url, allow_redirects=True, timeout=100).content]. *)
Definition requests_get (url : string) : M bytes :=
  fun w =>
    let w' := emit (EvGet url) (tick w) in
    match net (clock w) url with
    | Some content => (Ok content, w')
    | None => (Raise RequestException, w')
    end.

(** *** scrape_next_link *)

Definition scrape_next_link (page : Soup) (url : string) (pagination_index : nat)
  : M string :=
  href <- getitem (find_a_frGj1b page) "href" ;;
  let next_url := "https://www.google.com" +:+ href in
  print (nl +:+ next_url +:+ nl) ;;;
  ret next_url.

(** *** scrape_images *)

Definition sep : string := "&sa=U&ved=2".

(** The body of [for element in elements], with [images_list] threaded. *)
Fixpoint scrape_elements (elements : list Element) (images_list : list Image)
  : M (list Image) :=
  match elements with
  | [] => ret images_list
  | element :: rest =>
      image_url <- getitem (element_img element) "src" ;;
      href <- getitem (element_a element) "href" ;;
      let image_info_url := str_drop 7 href in
      let stripped := split1_head sep image_info_url in
      let image := mkImage image_url stripped in
      scrape_elements rest (images_list ++ [image])
  end.

Definition scrape_images (page : Soup) : M (list Image) :=
  let elements := find_all_div_lIMUZd page in
  scrape_elements elements [].

(** *** scrape_stock *)

(** The local variables [image_fn], [image_fp] and [row] of the loop body,
    as functions of what they are computed from. *)
Definition image_fn (image_url : string) : string :=
  sha1_hexdigest image_url +:+ ".jpg".

Definition image_fp (folderp image_url : string) : string :=
  os_path_join folderp (image_fn image_url).

Definition row_of (folderp : string) (num_images : nat) (image : Image) : Row :=
  mkRow num_images (img_image_url image) (img_image_info_url image)
        (image_fp folderp (img_image_url image)).

(** The download of one image, the [if not os.path.isfile(image_fp)] block
    of the loop body. *)
Definition download (path address : string) : M unit :=
  content <- requests_get address ;;
  if 0 <? length content then write_wb path content else print "[/] ".

(** The body of [for image in image_list]; it is entered with the value of
    [num_images] before the increment and returns the incremented value. *)
Definition process_image (folderp : string) (image : Image) (num_images : nat)
  : M nat :=
  let num_images := num_images + 1 in
  print (pretty num_images +:+ " ") ;;;
  let image_url := img_image_url image in
  let row := row_of folderp num_images image in
  writerow row ;;;
  downloaded <- os_path_isfile (image_fp folderp image_url) ;;
  (if negb downloaded then download (image_fp folderp image_url) image_url
   else ret tt) ;;;
  ret num_images.

Fixpoint for_images (folderp : string) (image_list : list Image) (num_images : nat)
  : M nat :=
  match image_list with
  | [] => ret num_images
  | image :: rest =>
      num_images' <- process_image folderp image num_images ;;
      for_images folderp rest num_images'
  end.

(** [try: r = requests.get(url, ...)  except Exception: ...] where the
    handler leaves [None]. *)
Definition try_get (url : string) : M (option bytes) :=
  try_except (content <- requests_get url ;; ret (Some content)) (ret None).

(** [for i in range(n)] of the handler: [Some] the content when an attempt
    succeeded ([success = True; break]), [None] when the range is used up. *)
Fixpoint retry_get (n : nat) (url : string) : M (option bytes) :=
  match n with
  | 0 => ret None
  | S n' =>
      print (nl +:+ "Connection problem. Sleeping to try again." +:+ nl) ;;;
      time_sleep 5 ;;;
      r <- try_get url ;;
      match r with
      | Some content => ret (Some content)
      | None => retry_get n' url
      end
  end.

(** The page download of one turn of the loop with its handler. *)
Definition fetch_page (url : string) : M (option bytes) :=
  r <- try_get url ;;
  match r with
  | Some content => ret (Some content)
  | None => retry_get 5 url
  end.

(** The records of a parsed page: [scrape_images] and the loop over what
    it returns. *)
Definition process_page (folderp : string) (num_images : nat) (soup : Soup)
  : M nat :=
  image_list <- scrape_images soup ;;
  for_images folderp image_list num_images.

(** The rest of a turn once the page is there: parse, process every image,
    look up the next page.  Returns the new [soup], [num_images], [url]. *)
Definition page_body (folderp url : string) (num_images cur_page : nat)
  (content : bytes) : M (Soup * nat * string) :=
  let soup := BeautifulSoup content in
  num_images' <- process_page folderp num_images soup ;;
  print "** Next page ** " ;;;
  url' <- scrape_next_link soup url cur_page ;;
  ret (soup, num_images', url').

(** [while num_images < max_images]: one unit of fuel per turn.  [soup] is
    [None] until the first assignment to the local variable. *)
Fixpoint while_pages (fuel : nat) (folderp url : string)
  (num_images cur_page : nat) (soup : option Soup) : M unit :=
  match fuel with
  | 0 => out_of_fuel
  | S fuel' =>
      if num_images <? max_images then
        r <- fetch_page url ;;
        match r with
        | None =>
            print (nl +:+ "Unresolved connection problem. Moving on" +:+ nl) ;;;
            print "** Next page ** " ;;;
            page <- load_local soup ;;
            url' <- scrape_next_link page url cur_page ;;
            while_pages fuel' folderp url' num_images (cur_page + 1) soup
        | Some content =>
            turn <- page_body folderp url num_images cur_page content ;;
            let '(soup', num_images', url') := turn in
            while_pages fuel' folderp url' num_images' (cur_page + 1) (Some soup')
        end
      else ret tt
  end.

Definition scrape_stock (fuel : nat) (term : string) : M unit :=
  let url := query_url term in
  folderp <- global_output_folder ;;
  present <- os_path_exists folderp ;;
  (if negb present then os_makedirs folderp else ret tt) ;;;
  while_pages fuel folderp url 0 1 None.

(** *** main *)

Definition main (fuel : nat) : M unit :=
  assign_output_folder query ;;;
  output_folder <- global_output_folder ;;
  is_dir <- os_path_isdir output_folder ;;
  (if negb is_dir then os_makedirs output_folder else ret tt) ;;;
  let output_csv_fn := query +:+ "_image_list.csv" in
  let output_csv_fp := os_path_join output_folder output_csv_fn in
  is_file <- os_path_isfile output_csv_fp ;;
  (if negb is_file then
     open_w output_csv_fp ;;;
     assign_output_csv ;;;
     writeheader
   else
     print ("Output CSV file already exists. Rename it or delete it first." +:+ nl) ;;;
     raise SystemExit) ;;;
  scrape_stock fuel query ;;;
  print (nl +:+ "Finished." +:+ nl).

End Program.

(** ** Worlds named in the statements *)

(** What the loop body prints first for the record of rank [n]. *)
Definition counter (n : nat) : event := EvPrint (pretty n +:+ " ").

(** The world once the counter of a record is printed and its row written
    after the rows [rows]. *)
Definition recorded (row : Row) (rows : list Row) (w : World) : World :=
  emit (EvWriteRow row)
       (set_output_csv (Some (rows ++ [row])) (emit (counter (rank_pos row)) w)).

(** The world after [n] turns of the retry loop on [url], each of them
    failing: the message, the sleep and the request, [n] times. *)
Fixpoint failed_retries (n : nat) (url : string) (w : World) : World :=
  match n with
  | 0 => w
  | S n' =>
      failed_retries n' url
        (emit (EvGet url)
           (tick (emit (EvSleep 5)
              (emit (EvPrint (nl +:+ "Connection problem. Sleeping to try again."
                              +:+ nl)) w))))
  end.

(** The world after the first request for a page and the five retries have
    all failed and the script has said that it moves on. *)
Definition gave_up (url : string) (w : World) : World :=
  emit (EvPrint "** Next page ** ")
    (emit (EvPrint (nl +:+ "Unresolved connection problem. Moving on" +:+ nl))
       (failed_retries 5 url (emit (EvGet url) (tick w)))).

(** ** Predicates named in the statements *)

(** The ranks of [rows] are 1, 2, 3, ... in this order. *)
Definition well_ranked (rows : list Row) : Prop :=
  map rank_pos rows = seq 1 (length rows).

(** The local path of a row is the digest of its image address with the
    extension, in the folder [folderp]. *)
Definition placed (sha1_hexdigest : string -> string) (folderp : string) (r : Row)
  : Prop :=
  download_file r = os_path_join folderp (sha1_hexdigest (image_url r) +:+ ".jpg").

(** The rows of a run that has counted [n] records into [folderp]: ranked
    from 1 to [n], each one placed in [folderp]. *)
Definition rows_ok (sha1_hexdigest : string -> string) (folderp : string) (n : nat)
  (rows : list Row) : Prop :=
  map rank_pos rows = seq 1 n /\ Forall (placed sha1_hexdigest folderp) rows.

Definition inv (sha1_hexdigest : string -> string) (folderp : string) (n : nat)
  (w : World) : Prop :=
  rows_ok sha1_hexdigest folderp n (rows_written w).

Definition inv_any (sha1_hexdigest : string -> string) (folderp : string)
  (w : World) : Prop :=
  exists n, inv sha1_hexdigest folderp n w.

(** The world in which [scrape_stock] is called: the global folder is the
    query and nothing has been written through the writer, if there is one. *)
Definition ready (sha1_hexdigest : string -> string) (query : string) (w : World)
  : Prop :=
  output_folder w = query /\ inv sha1_hexdigest query 0 w.

(** ** Specifications of computations *)

(** [triple P m Q E]: from a world in [P], the computation [m] ends in [Q]
    when it returns, and in [E] when it raises or runs out of fuel. *)
Definition triple {A} (P : World -> Prop) (m : M A) (Q : A -> World -> Prop)
  (E : World -> Prop) : Prop :=
  forall w, P w ->
    match m w with
    | (Ok a, w') => Q a w'
    | (_, w') => E w'
    end.

(** A computation that leaves the two module globals alone, however it
    ends. *)
Definition silent {A} (m : M A) : Prop :=
  forall w, output_csv (snd (m w)) = output_csv w /\
            output_folder (snd (m w)) = output_folder w.

(** A computation that always ends, with a value or with an exception that
    [except Exception] would catch. *)
Definition ends {A} (m : M A) : Prop :=
  forall w, match fst (m w) with
            | Ok _ => True
            | Raise e => is_Exception e = true
            | OutOfFuel => False
            end.

(** ** A small web to run the program on *)

Module Scenario.

(** A stand-in for the digest: any function of the address will do. *)
Definition digest (s : string) : string := "d" +:+ pretty (String.length s).

Definition result_div (src href : string) : Element :=
  mkElement (Some (mkTag {[ "src" := src ]})) (Some (mkTag {[ "href" := href ]})).

Definition next_anchor (href : string) : option Tag :=
  Some (mkTag {[ "href" := href ]}).

(** Two records and a link to the next page. *)
Definition page1 : Soup :=
  mkSoup [result_div "http://img/a" "/url?q=http://site/a&sa=U&ved=2xyz";
          result_div "http://img/bb" "/url?q=http://site/b"]
         (next_anchor "/search?start=20").

(** One record and no link to a next page. *)
Definition page2 : Soup :=
  mkSoup [result_div "http://img/ccc" "/url?q=http://site/c&sa=U&ved=2q"] None.

Definition parser (content : bytes) : Soup :=
  match content with
  | [Byte.x01] => page1
  | [Byte.x02] => page2
  | _ => mkSoup [] None
  end.

(** The first page links to the second; the image [http://img/bb] comes
    back empty, every other image as one byte. *)
Definition web (n : nat) (url : string) : option bytes :=
  if String.eqb url (query_url "puppy") then Some [Byte.x01]
  else if String.eqb url "https://www.google.com/search?start=20" then Some [Byte.x02]
  else if String.eqb url "http://img/bb" then Some []
  else Some [Byte.xff].

(** The same web with every image request failing. *)
Definition web_images_down (n : nat) (url : string) : option bytes :=
  if String.eqb url (query_url "puppy") then Some [Byte.x01]
  else if String.eqb url "https://www.google.com/search?start=20" then Some [Byte.x02]
  else None.

(** No request ever succeeds. *)
Definition web_down (n : nat) (url : string) : option bytes := None.

(** A file system where a previous run left its CSV file. *)
Definition files_with_csv : gmap string node :=
  {[ "puppy" := Dir; "puppy/puppy_image_list.csv" := File [Byte.x41] ]}.

(** A world in the middle of a run: the folder and the writer exist, one
    image is already on disk. *)
Definition midrun : World :=
  mkWorld {[ "puppy" := Dir; "puppy/puppy_image_list.csv" := File [];
             "puppy/d12.jpg" := File [Byte.x07] ]}
          1 [EvGet (query_url "puppy")] "puppy" (Some []).

(** Two images of the first page: the file of the first is in [midrun], the
    second is the one [web] answers with no content. *)
Definition image_a : Image := mkImage "http://img/a" "http://site/a".
Definition image_bb : Image := mkImage "http://img/bb" "http://site/b".

End Scenario.

(** ** Predicates on pages, files and runs *)

(** [sep in s]: the string [sep] occurs somewhere in [s]. *)
Fixpoint occurs (sep s : string) : bool :=
  if String.prefix sep s then true
  else match s with
       | EmptyString => false
       | String _ s' => occurs sep s'
       end.

(** [tag] is a tag, not [None], and it has the attribute [key]. *)
Definition has_attr (tag : option Tag) (key : string) : bool :=
  match tag with
  | Some t => match tag_attrs t !! key with Some _ => true | None => false end
  | None => false
  end.

(** A result container in which [scrape_images] finds what it reads: an
    [img] with a [src] and an [a] with an [href]. *)
Definition readable (element : Element) : bool :=
  has_attr (element_img element) "src" && has_attr (element_a element) "href".

(** The entry [image] holds what the container [element] shows: the [src]
    of its [img], and the [href] of its [a] without its first seven
    characters, cut before the first [sep]. *)
Definition scraped (element : Element) (image : Image) : Prop :=
  exists img a href,
    element_img element = Some img /\
    tag_attrs img !! "src" = Some (img_image_url image) /\
    element_a element = Some a /\
    tag_attrs a !! "href" = Some href /\
    img_image_info_url image = split1_head sep (str_drop 7 href).

(** A computation after which every file and directory that was there is
    still there, unchanged, however it ends. *)
Definition keeps_files {A} (m : M A) : Prop :=
  forall w, fs w ⊆ fs (snd (m w)).

(** A computation that requests nothing, however it ends. *)
Definition no_request {A} (m : M A) : Prop :=
  forall w, clock (snd (m w)) = clock w.

(** The rows of the images [images], ranked from [n + 1] on. *)
Fixpoint rows_of (sha1_hexdigest : string -> string) (folderp : string) (n : nat)
  (images : list Image) : list Row :=
  match images with
  | [] => []
  | image :: rest =>
      row_of sha1_hexdigest folderp (n + 1) image
      :: rows_of sha1_hexdigest folderp (n + 1) rest
  end.

(** The rows reached the target: [n] records counted, [max_images] or
    more, and the rows are those of [n] records. *)
Definition reached (sha1_hexdigest : string -> string) (folderp : string) (w : World)
  : Prop :=
  exists n, max_images <= n /\ inv sha1_hexdigest folderp n w.

(** The seconds of sleep in a log. *)
Fixpoint slept (l : list event) : nat :=
  match l with
  | [] => 0
  | EvSleep seconds :: l' => seconds + slept l'
  | _ :: l' => slept l'
  end.

(** ** A web without end *)

Module Endless.

(** A page with no result container whose next link is the page itself. *)
Definition page : Soup :=
  mkSoup [] (Some (mkTag {[ "href" := "/search?q=puppy&start=0" ]})).

Definition parser (content : bytes) : Soup := page.

Definition web (n : nat) (url : string) : option bytes := Some [Byte.x01].

End Endless.

(** ** A page that fills the target *)

Module Full.

(** Fifty records and a link to a next page. *)
Definition page : Soup :=
  mkSoup (map (fun i => Scenario.result_div ("http://img/" +:+ pretty i)
                                            ("/url?q=http://site/" +:+ pretty i))
              (seq 0 50))
         (Scenario.next_anchor "/search?start=50").

Definition parser (content : bytes) : Soup := page.

End Full.

(** ** A page with a link that is not ASCII *)

Module Accented.

(** The seven characters before the address of the site take eight bytes. *)
Definition page : Soup :=
  mkSoup [Scenario.result_div "http://img/u" "/ürl?q=http://site/u&sa=U&ved=2x";
          Scenario.result_div "http://img/a" "/url?q=http://site/a"]
         None.

End Accented.

(** ** A page with a container that cannot be read *)

Module Broken.

(** The second container has a link but no image. *)
Definition page : Soup :=
  mkSoup [Scenario.result_div "http://img/a" "/url?q=http://site/a";
          mkElement None (Some (mkTag {[ "href" := "/url?q=http://site/b" ]}))]
         (Scenario.next_anchor "/search?start=20").

End Broken.

(** * Properties *)

(** ** The monad and the primitives *)

Lemma bind_ok {A B} (m : M A) (k : A -> M B) w a w' :
  m w = (Ok a, w') -> bind m k w = k a w'.
Proof. intros E. unfold bind. now rewrite E. Qed.

Lemma bind_raise {A B} (m : M A) (k : A -> M B) w e w' :
  m w = (Raise e, w') -> bind m k w = (Raise e, w').
Proof. intros E. unfold bind. now rewrite E. Qed.

Lemma bind_out_of_fuel {A B} (m : M A) (k : A -> M B) w w' :
  m w = (OutOfFuel, w') -> bind m k w = (OutOfFuel, w').
Proof. intros E. unfold bind. now rewrite E. Qed.

Lemma is_file_not_dir files p : is_file files p = true -> is_dir files p = false.
Proof. unfold is_file, is_dir. destruct (stat files p) as [[|]|]; congruence. Qed.

(** Opening a file for writing either leaves the content in it or raises
    and changes nothing. *)
Lemma create_file_cases p content e w :
  create_file p content e w
  = (Ok tt, emit e (set_fs (<[p := File content]> (fs w)) w)) \/
  exists x, is_Exception x = true /\ create_file p content e w = (Raise x, w).
Proof.
  unfold create_file.
  destruct (String.eqb p ""); [right; now exists FileNotFoundError|].
  destruct (stat (fs w) p) as [[c|]|];
    [now left | right; now exists IsADirectoryError |].
  destruct (stat_parent (fs w) p) as [[c|]|];
    [right; now exists NotADirectoryError | now left
    | right; now exists FileNotFoundError].
Qed.

(** Making a directory either adds it or raises and changes nothing. *)
Lemma os_mkdir_cases p w :
  os_mkdir p w = (Ok tt, emit (EvMakedirs p) (set_fs (<[p := Dir]> (fs w)) w)) \/
  exists x, is_Exception x = true /\ os_mkdir p w = (Raise x, w).
Proof.
  unfold os_mkdir.
  destruct (String.eqb p ""); [right; now exists FileNotFoundError|].
  destruct (stat (fs w) p) as [n|]; [right; now exists FileExistsError|].
  destruct (stat_parent (fs w) p) as [[c|]|];
    [right; now exists NotADirectoryError | now left
    | right; now exists FileNotFoundError].
Qed.

(** ** One record *)

Section Record_step.

Variable sha1_hexdigest : string -> string.
Variable net : nat -> string -> option bytes.

Lemma process_image_unfold folderp image num_images w rows :
  output_csv w = Some rows ->
  process_image sha1_hexdigest net folderp image num_images w =
  bind (if is_file (fs w) (image_fp sha1_hexdigest folderp (img_image_url image))
        then ret tt
        else download net (image_fp sha1_hexdigest folderp (img_image_url image))
                      (img_image_url image))
       (fun _ => ret (num_images + 1))
       (recorded (row_of sha1_hexdigest folderp (num_images + 1) image) rows w).
Proof.
  intros Hcsv. unfold process_image, recorded, counter.
  cbn [row_of rank_pos].
  unfold bind at 1. unfold print at 1. cbv beta iota.
  unfold bind at 1. unfold writerow at 1. cbn [emit output_csv]. rewrite Hcsv.
  unfold bind at 1. unfold os_path_isfile at 1. cbn [emit set_output_csv fs].
  destruct (is_file (fs w) _); cbn [negb]; reflexivity.
Qed.

Lemma log_recorded row rows w :
  log (recorded row rows w) = log w ++ [counter (rank_pos row); EvWriteRow row].
Proof. unfold recorded. cbn [emit set_output_csv log]. now rewrite <- app_assoc. Qed.

Lemma clock_recorded row rows w : clock (recorded row rows w) = clock w.
Proof. reflexivity. Qed.

Lemma fs_recorded row rows w : fs (recorded row rows w) = fs w.
Proof. reflexivity. Qed.

Lemma download_raises path address w :
  net (clock w) address = None ->
  download net path address w = (Raise RequestException, emit (EvGet address) (tick w)).
Proof. intros E. unfold download, requests_get, bind. now rewrite E. Qed.

Lemma download_empty path address w :
  net (clock w) address = Some [] ->
  download net path address w =
  (Ok tt, emit (EvPrint "[/] ") (emit (EvGet address) (tick w))).
Proof. intros E. unfold download, requests_get, bind. now rewrite E. Qed.

Lemma download_keeps_rows path address w :
  output_csv (snd (download net path address w)) = output_csv w.
Proof.
  unfold download, bind, requests_get.
  destruct (net (clock w) address) as [content|]; [|reflexivity].
  destruct (0 <? length content); [|reflexivity].
  unfold write_wb.
  destruct (create_file_cases path content (EvWriteFile path content)
              (emit (EvGet address) (tick w))) as [->|(x & _ & ->)]; reflexivity.
Qed.

Lemma download_log path address w :
  exists rest, log (snd (download net path address w)) = log w ++ EvGet address :: rest.
Proof.
  unfold download, bind, requests_get.
  destruct (net (clock w) address) as [content|]; [|now exists []].
  destruct (0 <? length content).
  - unfold write_wb.
    destruct (create_file_cases path content (EvWriteFile path content)
                (emit (EvGet address) (tick w))) as [->|(x & _ & ->)];
      cbn [snd emit set_fs log tick]; rewrite <- ?app_assoc; eexists; reflexivity.
  - cbn [snd print emit log tick]. rewrite <- app_assoc. eexists; reflexivity.
Qed.

(** C7. A record whose local path already names a file: the row is written,
    no request is made (the clock stands still and nothing but the counter
    and the row is logged), the file system is left as it was, and the loop
    body returns normally. *)
Theorem existing_image_is_not_downloaded folderp image num_images w rows :
  output_csv w = Some rows ->
  is_file (fs w) (image_fp sha1_hexdigest folderp (img_image_url image)) = true ->
  let row := row_of sha1_hexdigest folderp (num_images + 1) image in
  let out := process_image sha1_hexdigest net folderp image num_images w in
  fst out = Ok (num_images + 1) /\
  output_csv (snd out) = Some (rows ++ [row]) /\
  fs (snd out) = fs w /\
  clock (snd out) = clock w /\
  log (snd out) = log w ++ [counter (num_images + 1); EvWriteRow row].
Proof.
  intros Hcsv Hfile row out. subst out.
  rewrite (process_image_unfold _ _ _ _ rows Hcsv), Hfile.
  unfold bind, ret. cbn [fst snd].
  repeat split; try reflexivity.
  apply log_recorded.
Qed.

(** C9. An image request that succeeds with zero bytes: the row is written
    with the computed local path, the file system is left as it was (so
    nothing is created at that path), and the loop goes on with the next
    record. *)
Theorem empty_image_leaves_no_file folderp image rest num_images w rows :
  output_csv w = Some rows ->
  is_file (fs w) (image_fp sha1_hexdigest folderp (img_image_url image)) = false ->
  net (clock w) (img_image_url image) = Some [] ->
  let row := row_of sha1_hexdigest folderp (num_images + 1) image in
  let out := process_image sha1_hexdigest net folderp image num_images w in
  fst out = Ok (num_images + 1) /\
  output_csv (snd out) = Some (rows ++ [row]) /\
  download_file row = image_fp sha1_hexdigest folderp (img_image_url image) /\
  fs (snd out) = fs w /\
  is_file (fs (snd out)) (download_file row) = false /\
  for_images sha1_hexdigest net folderp (image :: rest) num_images w =
  for_images sha1_hexdigest net folderp rest (num_images + 1) (snd out).
Proof.
  intros Hcsv Hfile Hnet row out.
  assert (E : out = (Ok (num_images + 1),
                     emit (EvPrint "[/] ") (emit (EvGet (img_image_url image))
                       (tick (recorded row rows w))))).
  { subst out. rewrite (process_image_unfold _ _ _ _ rows Hcsv), Hfile.
    unfold bind. rewrite download_empty by exact Hnet. reflexivity. }
  cbn [for_images]. unfold bind at 1. fold out. rewrite E. cbn [fst snd].
  repeat split; try reflexivity. exact Hfile.
Qed.

(** C8, as the code has it.  An image request that raises is not retried
    and not skipped: the exception leaves the loop over the records after a
    single request and no sleep, the records that follow are not processed.
    The row written before the request stays, and no file is written. *)
Theorem failed_image_request_ends_the_loop folderp image rest num_images w rows :
  output_csv w = Some rows ->
  is_file (fs w) (image_fp sha1_hexdigest folderp (img_image_url image)) = false ->
  net (clock w) (img_image_url image) = None ->
  let row := row_of sha1_hexdigest folderp (num_images + 1) image in
  let out := for_images sha1_hexdigest net folderp (image :: rest) num_images w in
  fst out = Raise RequestException /\
  output_csv (snd out) = Some (rows ++ [row]) /\
  fs (snd out) = fs w /\
  clock (snd out) = S (clock w) /\
  log (snd out) =
    log w ++ [counter (num_images + 1); EvWriteRow row; EvGet (img_image_url image)].
Proof.
  intros Hcsv Hfile Hnet row out.
  assert (E : out = (Raise RequestException,
                     emit (EvGet (img_image_url image)) (tick (recorded row rows w)))).
  { subst out. cbn [for_images]. unfold bind at 1.
    rewrite (process_image_unfold _ _ _ _ rows Hcsv), Hfile.
    unfold bind. rewrite download_raises by exact Hnet. reflexivity. }
  rewrite E. cbn [fst snd]. repeat split; try reflexivity.
  cbn [emit log tick]. rewrite log_recorded, <- app_assoc. reflexivity.
Qed.

End Record_step.

(** C6. The row of a record is written before anything is requested: what
    the loop body adds to the log starts with the counter and the row, and
    the request for the image, if there is one, comes after them.  The rows
    in the store after the body are the same whatever the network answers. *)
Theorem row_is_written_before_the_download
  sha1_hexdigest net folderp image num_images w rows :
  output_csv w = Some rows ->
  let row := row_of sha1_hexdigest folderp (num_images + 1) image in
  let out := process_image sha1_hexdigest net folderp image num_images w in
  output_csv (snd out) = Some (rows ++ [row]) /\
  (exists tail,
     log (snd out) = log w ++ [counter (num_images + 1); EvWriteRow row] ++ tail /\
     (tail = [] \/ exists rest, tail = EvGet (img_image_url image) :: rest)) /\
  (forall net',
     output_csv (snd (process_image sha1_hexdigest net' folderp image num_images w))
     = output_csv (snd out)).
Proof.
  intros Hcsv row out.
  assert (Hrows : forall net0,
    output_csv (snd (process_image sha1_hexdigest net0 folderp image num_images w))
    = Some (rows ++ [row])).
  { intros net0. rewrite (process_image_unfold _ _ _ _ _ _ rows Hcsv).
    destruct (is_file (fs w) _); [reflexivity|].
    unfold bind at 1.
    pose proof (download_keeps_rows net0
      (image_fp sha1_hexdigest folderp (img_image_url image)) (img_image_url image)
      (recorded row rows w)) as K. fold row.
    destruct (download net0 _ _ _) as [[[]| |] w']; cbn [snd ret] in *; exact K. }
  split; [apply Hrows|]. split; [|intros net'; subst out; now rewrite !Hrows].
  subst out. rewrite (process_image_unfold _ _ _ _ _ _ rows Hcsv). fold row.
  destruct (is_file (fs w) _).
  - exists []. split; [|now left]. unfold bind, ret. cbn [snd].
    rewrite log_recorded, app_nil_r. reflexivity.
  - destruct (download_log net
      (image_fp sha1_hexdigest folderp (img_image_url image)) (img_image_url image)
      (recorded row rows w)) as [rest K].
    exists (EvGet (img_image_url image) :: rest). split; [|right; now exists rest].
    unfold bind at 1.
    destruct (download net _ _ _) as [[[]| |] w']; cbn [snd ret] in *;
      rewrite K, log_recorded, <- app_assoc; reflexivity.
Qed.

(** ** Rules for [triple], [silent] and [ends] *)

Lemma triple_ret {A} (a : A) (Q : A -> World -> Prop) E : triple (Q a) (ret a) Q E.
Proof. intros w H. exact H. Qed.

Lemma triple_bind {A B} P (m : M A) (k : A -> M B) Q R E :
  triple P m Q E -> (forall a, triple (Q a) (k a) R E) -> triple P (bind m k) R E.
Proof.
  intros Hm Hk w HP. specialize (Hm w HP). unfold bind.
  destruct (m w) as [[a| e |] w']; try exact Hm.
  apply (Hk a w' Hm).
Qed.

Lemma triple_weaken {A} (P P' : World -> Prop) (m : M A) (Q Q' : A -> World -> Prop)
  (E E' : World -> Prop) :
  triple P' m Q' E' ->
  (forall w, P w -> P' w) -> (forall a w, Q' a w -> Q a w) -> (forall w, E' w -> E w) ->
  triple P m Q E.
Proof.
  intros H HP HQ HE w Hw. specialize (H w (HP w Hw)).
  destruct (m w) as [[a| e |] w']; auto.
Qed.

(** A silent computation keeps whatever is known of the globals. *)
Lemma triple_silent {A} (m : M A) (I : string -> option (list Row) -> Prop) :
  silent m ->
  triple (fun w => I (output_folder w) (output_csv w)) m
         (fun _ w => I (output_folder w) (output_csv w))
         (fun w => I (output_folder w) (output_csv w)).
Proof.
  intros Hs w HI. destruct (Hs w) as [Hc Hf].
  destruct (m w) as [[a| e |] w']; cbn [snd] in Hc, Hf; now rewrite Hc, Hf.
Qed.

Lemma silent_ret {A} (a : A) : silent (ret a).
Proof. intros w. now split. Qed.

Lemma silent_raise {A} e : silent (@raise A e).
Proof. intros w. now split. Qed.

Lemma silent_bind {A B} (m : M A) (k : A -> M B) :
  silent m -> (forall a, silent (k a)) -> silent (bind m k).
Proof.
  intros Hm Hk w. destruct (Hm w) as [Hc Hf]. unfold bind.
  destruct (m w) as [[a| e |] w']; cbn [snd] in *; try (now split).
  destruct (Hk a w') as [Hc' Hf']. split; congruence.
Qed.

Lemma silent_try {A} (m h : M A) : silent m -> silent h -> silent (try_except m h).
Proof.
  intros Hm Hh w. destruct (Hm w) as [Hc Hf]. unfold try_except.
  destruct (m w) as [[a| e |] w']; cbn [snd] in *; try (now split).
  destruct (is_Exception e); cbn [snd]; [|now split].
  destruct (Hh w') as [Hc' Hf']. split; congruence.
Qed.

Lemma silent_if {A} (b : bool) (m1 m2 : M A) :
  silent m1 -> silent m2 -> silent (if b then m1 else m2).
Proof. now destruct b. Qed.

Lemma silent_print s : silent (print s).
Proof. intros w. now split. Qed.

Lemma silent_time_sleep n : silent (time_sleep n).
Proof. intros w. now split. Qed.

Lemma silent_os_path_isfile p : silent (os_path_isfile p).
Proof. intros w. now split. Qed.

Lemma silent_os_path_isdir p : silent (os_path_isdir p).
Proof. intros w. now split. Qed.

Lemma silent_os_path_exists p : silent (os_path_exists p).
Proof. intros w. now split. Qed.

Lemma silent_global_output_folder : silent global_output_folder.
Proof. intros w. now split. Qed.

Lemma silent_writeheader : silent writeheader.
Proof. intros w. now split. Qed.

Lemma silent_os_mkdir p : silent (os_mkdir p).
Proof.
  intros w. destruct (os_mkdir_cases p w) as [->|(x & _ & ->)]; now split.
Qed.

Lemma silent_makedirs_heads fuel : forall name, silent (makedirs_heads fuel name).
Proof.
  induction fuel as [|fuel IH]; intros name; cbn [makedirs_heads].
  - apply silent_ret.
  - destruct (String.eqb (parent_path name) ""); [apply silent_ret|].
    apply silent_bind; [apply silent_os_path_exists|].
    intros [|]; [apply silent_ret|].
    apply silent_bind; [apply IH | intros _; apply silent_os_mkdir].
Qed.

Lemma silent_os_makedirs p : silent (os_makedirs p).
Proof.
  intros w. unfold os_makedirs.
  destruct (String.eqb p ""); [now split|].
  destruct (stat (fs w) p); [now split|].
  apply silent_bind; [apply silent_makedirs_heads | intros _; apply silent_os_mkdir].
Qed.

Lemma silent_create_file p content e : silent (create_file p content e).
Proof.
  intros w. destruct (create_file_cases p content e w) as [->|(x & _ & ->)]; now split.
Qed.

Lemma silent_getitem tag key : silent (getitem tag key).
Proof.
  unfold getitem. destruct tag as [t|]; [|apply silent_raise].
  destruct (tag_attrs t !! key); [apply silent_ret | apply silent_raise].
Qed.

Lemma silent_load_local {A} (v : option A) : silent (load_local v).
Proof. destruct v; [apply silent_ret | apply silent_raise]. Qed.

Lemma silent_requests_get net url : silent (requests_get net url).
Proof.
  intros w. unfold requests_get. destruct (net (clock w) url); now split.
Qed.

Create HintDb silent.
#[local] Hint Resolve silent_ret silent_raise silent_print silent_time_sleep
  silent_os_path_isfile silent_os_path_isdir silent_os_path_exists
  silent_global_output_folder silent_writeheader
  silent_os_makedirs silent_create_file silent_getitem silent_load_local
  silent_requests_get : silent.

Ltac silent_step :=
  repeat first
    [ apply silent_bind; [|intros ?]
    | apply silent_try
    | apply silent_if
    | solve [auto with silent] ].

Lemma silent_scrape_next_link page url idx : silent (scrape_next_link page url idx).
Proof. unfold scrape_next_link. silent_step. Qed.

Lemma silent_scrape_elements elements images_list :
  silent (scrape_elements elements images_list).
Proof.
  revert images_list.
  induction elements as [|element rest IH]; intros images_list; cbn [scrape_elements].
  - apply silent_ret.
  - silent_step.
Qed.

Lemma silent_scrape_images page : silent (scrape_images page).
Proof. apply silent_scrape_elements. Qed.

Lemma silent_try_get net url : silent (try_get net url).
Proof. unfold try_get. silent_step. Qed.

Lemma silent_retry_get net n url : silent (retry_get net n url).
Proof.
  induction n as [|n IH]; cbn [retry_get].
  - apply silent_ret.
  - do 2 (apply silent_bind; [auto with silent|intros _]).
    apply silent_bind; [apply silent_try_get|].
    intros [content|]; [apply silent_ret | apply IH].
Qed.

Lemma silent_fetch_page net url : silent (fetch_page net url).
Proof.
  unfold fetch_page. apply silent_bind; [apply silent_try_get|].
  intros [content|]; [apply silent_ret | apply silent_retry_get].
Qed.

Lemma silent_download net path address : silent (download net path address).
Proof. unfold download, write_wb. silent_step. Qed.

#[local] Hint Resolve silent_scrape_next_link silent_scrape_images silent_try_get
  silent_retry_get silent_fetch_page silent_download : silent.

(** ** The rows of a run *)

Lemma rows_ok_snoc sha1_hexdigest folderp n rows image :
  rows_ok sha1_hexdigest folderp n rows ->
  rows_ok sha1_hexdigest folderp (n + 1)
          (rows ++ [row_of sha1_hexdigest folderp (n + 1) image]).
Proof.
  intros [Hrank Hplaced]. split.
  - rewrite map_app, Hrank. cbn [map row_of rank_pos].
    replace (n + 1) with (S n) by lia. now rewrite seq_S.
  - apply Forall_app. split; [exact Hplaced|].
    constructor; [reflexivity | constructor].
Qed.

Lemma rows_ok_well_ranked sha1_hexdigest folderp n rows :
  rows_ok sha1_hexdigest folderp n rows -> well_ranked rows.
Proof.
  intros [Hrank _]. unfold well_ranked.
  assert (length rows = n) as ->; [|exact Hrank].
  rewrite <- (length_map rank_pos), Hrank. apply length_seq.
Qed.

Section Run_invariant.

Variable sha1_hexdigest : string -> string.
Variable BeautifulSoup : bytes -> Soup.
Variable net : nat -> string -> option bytes.
Variable folderp : string.

Abbreviation inv := (inv sha1_hexdigest folderp).
Abbreviation inv_any := (inv_any sha1_hexdigest folderp).

Lemma inv_inv_any n w : inv n w -> inv_any w.
Proof. intros H. now exists n. Qed.

(** A silent computation keeps the invariant, however it ends. *)
Lemma triple_silent_inv {A} (m : M A) n :
  silent m -> triple (inv n) m (fun _ => inv n) inv_any.
Proof.
  intros Hs.
  apply (triple_weaken _ _ _ _ _ _ _
           (triple_silent m
              (fun _ o => rows_ok sha1_hexdigest folderp n
                            (match o with Some rows => rows | None => [] end)) Hs)).
  - intros w H. exact H.
  - intros _ w H. exact H.
  - intros w H. exists n. exact H.
Qed.

Lemma process_image_inv image n :
  triple (inv n) (process_image sha1_hexdigest net folderp image n)
         (fun m => inv m) inv_any.
Proof.
  intros w Hinv. destruct (output_csv w) as [rows|] eqn:Hcsv.
  - rewrite (process_image_unfold _ _ _ _ _ _ rows Hcsv).
    set (w1 := recorded _ rows w).
    assert (H1 : inv (n + 1) w1).
    { unfold inv. unfold inv, rows_written in Hinv. rewrite Hcsv in Hinv.
      cbn. now apply rows_ok_snoc. }
    refine (triple_bind (inv (n + 1)) _ _ (fun _ => inv (n + 1)) _ _ _ _ w1 H1).
    + apply triple_silent_inv. apply silent_if; auto with silent.
    + intros _. apply triple_ret.
  - unfold process_image, bind, print, writerow. cbn [emit output_csv].
    rewrite Hcsv. exists n. unfold inv, rows_written in *. cbn [emit output_csv].
    now rewrite Hcsv in *.
Qed.

Lemma for_images_inv image_list n :
  triple (inv n) (for_images sha1_hexdigest net folderp image_list n)
         (fun m => inv m) inv_any.
Proof.
  revert n. induction image_list as [|image rest IH]; intros n; cbn [for_images].
  - apply triple_ret.
  - eapply triple_bind; [apply process_image_inv|]. intros m. apply IH.
Qed.

Lemma process_page_inv n soup :
  triple (inv n) (process_page sha1_hexdigest net folderp n soup)
         (fun m => inv m) inv_any.
Proof.
  unfold process_page. eapply triple_bind.
  - apply triple_silent_inv. apply silent_scrape_images.
  - intros image_list. apply for_images_inv.
Qed.

Lemma page_body_inv url n cur_page content :
  triple (inv n)
         (page_body sha1_hexdigest BeautifulSoup net folderp url n cur_page content)
         (fun turn => inv (snd (fst turn))) inv_any.
Proof.
  unfold page_body. eapply triple_bind; [apply process_page_inv|]. intros m.
  eapply triple_bind; [apply triple_silent_inv, silent_print|]. intros ?; cbv beta.
  eapply triple_bind; [apply triple_silent_inv, silent_scrape_next_link|].
  intros url'. cbv beta. apply (triple_ret (_, m, url') (fun turn => inv (snd (fst turn)))).
Qed.

Lemma while_pages_inv fuel url n cur_page soup :
  triple (inv n)
         (while_pages sha1_hexdigest BeautifulSoup net fuel folderp url n cur_page soup)
         (fun _ => inv_any) inv_any.
Proof.
  revert url n cur_page soup.
  induction fuel as [|fuel IH]; intros url n cur_page soup; cbn [while_pages].
  - intros w H. now exists n.
  - destruct (n <? max_images).
    + eapply triple_bind; [apply triple_silent_inv, silent_fetch_page|].
      intros [content|]; cbv beta.
      * eapply triple_bind; [apply page_body_inv|].
        intros [[soup' n'] url']. apply IH.
      * eapply triple_bind; [apply triple_silent_inv, silent_print|]. intros ?; cbv beta.
        eapply triple_bind; [apply triple_silent_inv, silent_print|]. intros ?; cbv beta.
        eapply triple_bind; [apply triple_silent_inv, silent_load_local|]. intros page.
        eapply triple_bind; [apply triple_silent_inv, silent_scrape_next_link|].
        intros url'. apply IH.
    + intros w H. now exists n.
Qed.

End Run_invariant.

(** ** The whole run *)

Lemma triple_pure {A} (phi : Prop) (P : World -> Prop) (m : M A) Q E :
  (phi -> triple P m Q E) -> triple (fun w => phi /\ P w) m Q E.
Proof. intros H w [Hphi HP]. now apply H. Qed.

Lemma triple_end {A} (P E : World -> Prop) (m : M A) w :
  triple P m (fun _ => E) E -> P w -> E (snd (m w)).
Proof.
  intros H HP. specialize (H w HP). now destruct (m w) as [[a| e |] w'].
Qed.

Section Whole_run.

Variable sha1_hexdigest : string -> string.
Variable BeautifulSoup : bytes -> Soup.
Variable net : nat -> string -> option bytes.
Variable query : string.

Abbreviation ready := (ready sha1_hexdigest query).
Abbreviation inv_any := (inv_any sha1_hexdigest query).

Lemma ready_inv_any w : ready w -> inv_any w.
Proof. intros [_ H]. now exists 0. Qed.

Lemma triple_silent_ready {A} (m : M A) :
  silent m -> triple ready m (fun _ => ready) inv_any.
Proof.
  intros Hs.
  apply (triple_weaken _ _ _ _ _ _ _
           (triple_silent m
              (fun f o => f = query /\
                          rows_ok sha1_hexdigest query 0
                            (match o with Some rows => rows | None => [] end)) Hs)).
  - intros w H. exact H.
  - intros _ w H. exact H.
  - intros w H. now apply ready_inv_any.
Qed.

Lemma triple_silent_inv_any {A} (m : M A) :
  silent m -> triple inv_any m (fun _ => inv_any) inv_any.
Proof.
  intros Hs.
  apply (triple_silent m
           (fun _ o => exists n, rows_ok sha1_hexdigest query n
                         (match o with Some rows => rows | None => [] end)) Hs).
Qed.

Lemma scrape_stock_inv fuel term :
  triple ready (scrape_stock sha1_hexdigest BeautifulSoup net fuel term)
         (fun _ => inv_any) inv_any.
Proof.
  unfold scrape_stock.
  apply (triple_bind _ _ _ (fun d w => d = query /\ ready w)).
  - intros w H. cbn. split; [apply H | exact H].
  - intros d. apply triple_pure. intros ->.
    eapply triple_bind; [apply triple_silent_ready, silent_os_path_exists|].
    intros present; cbv beta.
    eapply triple_bind.
    + apply triple_silent_ready. apply silent_if; auto with silent.
    + intros ?; cbv beta.
      eapply triple_weaken; [apply while_pages_inv| | |]; cbv beta.
      * intros w [_ H]. exact H.
      * intros _ w H. exact H.
      * intros w H. exact H.
Qed.

Lemma main_inv fuel :
  triple (fun w => output_csv w = None)
         (main sha1_hexdigest BeautifulSoup net query fuel)
         (fun _ => inv_any) inv_any.
Proof.
  assert (Hnil : rows_ok sha1_hexdigest query 0 []) by (split; [reflexivity|constructor]).
  unfold main.
  apply (triple_bind _ _ _ (fun _ => ready)).
  { intros w H. cbn. split; [reflexivity|].
    unfold inv, rows_written. cbn. now rewrite H. }
  intros _.
  apply (triple_bind _ _ _ (fun d w => d = query /\ ready w)).
  { intros w H. cbn. split; [apply H | exact H]. }
  intros d. apply triple_pure. intros ->.
  eapply triple_bind; [apply triple_silent_ready, silent_os_path_isdir|].
  intros is_dir0; cbv beta.
  eapply triple_bind;
    [apply triple_silent_ready; apply silent_if; auto with silent|].
  intros ?; cbv beta.
  eapply triple_bind; [apply triple_silent_ready, silent_os_path_isfile|].
  intros is_file0; cbv beta.
  apply (triple_bind _ _ _ (fun _ => ready)).
  { destruct is_file0; cbn [negb].
    - eapply triple_bind; [apply triple_silent_ready, silent_print|].
      intros ?; cbv beta. intros w H. cbn. now apply ready_inv_any.
    - eapply triple_bind;
        [apply triple_silent_ready; unfold open_w; apply silent_create_file|].
      intros ?; cbv beta.
      apply (triple_bind _ _ _ (fun _ => ready)).
      + intros w [Hf _]. cbn. split; [exact Hf | exact Hnil].
      + intros ?. apply triple_silent_ready, silent_writeheader. }
  intros ?.
  eapply triple_bind; [apply scrape_stock_inv|].
  intros ?; cbv beta. apply triple_silent_inv_any, silent_print.
Qed.

End Whole_run.

(** C3. Whatever the network, the pages and the file system are, and
    however the run ends (return, exception, or still running when the fuel is
    used up), the ranks of the rows written are 1, 2, 3, ... in the order of
    writing: the counter goes on from page to page. *)
Theorem ranks_count_from_one
  sha1_hexdigest BeautifulSoup net query fuel files :
  well_ranked
    (rows_written
       (snd (main sha1_hexdigest BeautifulSoup net query fuel (initial_world files)))).
Proof.
  destruct (triple_end _ _ _ (initial_world files)
              (main_inv sha1_hexdigest BeautifulSoup net query fuel) eq_refl)
    as [n Hn].
  exact (rows_ok_well_ranked _ _ _ _ Hn).
Qed.

Lemma has_sep_app a b : has_sep (a +:+ b) = has_sep a || has_sep b.
Proof.
  induction a as [|c a IH]; simpl; [reflexivity|]. now rewrite IH, orb_assoc.
Qed.

Lemma os_path_basename_plain s : has_sep s = false -> os_path_basename s = s.
Proof. destruct s as [|c s]; [reflexivity|]. intros H. cbn [os_path_basename]. now rewrite H. Qed.

Lemma os_path_basename_entry b :
  has_sep b = false -> forall a, os_path_basename (a +:+ "/" +:+ b) = b.
Proof.
  intros Hb. induction a as [|c a IH].
  - change ("" +:+ "/" +:+ b) with (String "/" b). cbn [os_path_basename has_sep].
    change (Ascii.eqb "/" "/") with true. cbn [orb]. now apply os_path_basename_plain.
  - change (String c a +:+ "/" +:+ b) with (String c (a +:+ "/" +:+ b)).
    cbn [os_path_basename]. cbn [has_sep]. rewrite has_sep_app. cbn [has_sep].
    change (Ascii.eqb "/" "/") with true. cbn [orb]. rewrite !orb_true_r. exact IH.
Qed.

Lemma ends_with_sep_split a :
  ends_with_sep a = true -> exists a', a = a' +:+ "/".
Proof.
  induction a as [|c a IH]; [discriminate|]. cbn [ends_with_sep].
  destruct a as [|c' a].
  - intros H. apply Ascii.eqb_eq in H as ->. now exists "".
  - intros H. destruct (IH H) as [a' E]. exists (String c a').
    change (String c a' +:+ "/") with (String c (a' +:+ "/")). now rewrite <- E.
Qed.

Lemma append_assoc a b c : (a +:+ b) +:+ c = a +:+ b +:+ c.
Proof.
  induction a as [|x a IH]; [reflexivity|].
  change (String x ((a +:+ b) +:+ c) = String x (a +:+ b +:+ c)). now rewrite IH.
Qed.

(** The last component of a path joined from a folder and a name without
    a separator is the name. *)
Lemma os_path_basename_join a b :
  has_sep b = false -> os_path_basename (os_path_join a b) = b.
Proof.
  intros Hb. unfold os_path_join.
  destruct (starts_with_sep b) eqn:Es.
  - now apply os_path_basename_plain.
  - destruct (String.eqb a "") eqn:Ea.
    + apply String.eqb_eq in Ea as ->. now apply os_path_basename_plain.
    + cbn [orb]. destruct (ends_with_sep a) eqn:Ee.
      * destruct (ends_with_sep_split _ Ee) as [a' ->].
        rewrite append_assoc. now apply os_path_basename_entry.
      * now apply os_path_basename_entry.
Qed.

Lemma main_rows_placed sha1_hexdigest BeautifulSoup net query fuel files r :
  In r (rows_written
          (snd (main sha1_hexdigest BeautifulSoup net query fuel (initial_world files)))) ->
  placed sha1_hexdigest query r.
Proof.
  destruct (triple_end _ _ _ (initial_world files)
              (main_inv sha1_hexdigest BeautifulSoup net query fuel) eq_refl)
    as [n [_ Hplaced]].
  intros Hin. rewrite Forall_forall in Hplaced. apply Hplaced.
  now apply list_elem_of_In.
Qed.

(** C5. The local path of a row is the output folder of its run, which
    is the query, joined with a file name that is the digest of the row's
    image address followed by [".jpg"].  So two rows with the same image
    address, of one run or of two runs at any pages, networks and file
    systems, have paths made with the same file name; they have the same
    path when the runs have the same query; and when no digest has a
    separator in it, as is the case of a hexadecimal digest, that file name
    is the last component of both paths. *)
Theorem local_path_is_a_function_of_the_address
  sha1_hexdigest parse1 parse2 net1 net2 query1 query2 fuel1 fuel2 files1 files2
  r1 r2 :
  In r1 (rows_written
           (snd (main sha1_hexdigest parse1 net1 query1 fuel1 (initial_world files1)))) ->
  In r2 (rows_written
           (snd (main sha1_hexdigest parse2 net2 query2 fuel2 (initial_world files2)))) ->
  image_url r1 = image_url r2 ->
  let name := sha1_hexdigest (image_url r1) +:+ ".jpg" in
  download_file r1 = os_path_join query1 name /\
  download_file r2 = os_path_join query2 name /\
  (query1 = query2 -> download_file r1 = download_file r2) /\
  ((forall s, has_sep (sha1_hexdigest s) = false) ->
   os_path_basename (download_file r1) = name /\
   os_path_basename (download_file r2) = name).
Proof.
  intros H1 H2 Hurl name.
  apply main_rows_placed in H1. apply main_rows_placed in H2.
  unfold placed in H1, H2. rewrite <- Hurl in H2. fold name in H1, H2.
  split; [exact H1|]. split; [exact H2|]. split.
  - intros ->. now rewrite H1, H2.
  - intros Hhex.
    assert (Hname : has_sep name = false) by (unfold name; now rewrite has_sep_app, Hhex).
    rewrite H1, H2. split; now apply os_path_basename_join.
Qed.

(** ** The next page *)


Lemma scrape_next_link_none page url idx w :
  find_a_frGj1b page = None ->
  scrape_next_link page url idx w = (Raise TypeError, w).
Proof. intros H. unfold scrape_next_link, bind, getitem. now rewrite H. Qed.

Lemma scrape_next_link_some page url idx w tag href :
  find_a_frGj1b page = Some tag -> tag_attrs tag !! "href" = Some href ->
  scrape_next_link page url idx w =
  (Ok ("https://www.google.com" +:+ href),
   emit (EvPrint (nl +:+ ("https://www.google.com" +:+ href) +:+ nl)) w).
Proof.
  intros H1 H2. unfold scrape_next_link, bind, getitem. rewrite H1, H2. reflexivity.
Qed.

(** ** Fetching a page *)

Section Fetch.

Variable net : nat -> string -> option bytes.

Lemma try_get_none url w :
  net (clock w) url = None ->
  try_get net url w = (Ok None, emit (EvGet url) (tick w)).
Proof. intros H. unfold try_get, try_except, bind, requests_get. now rewrite H. Qed.

Lemma try_get_some url w content :
  net (clock w) url = Some content ->
  try_get net url w = (Ok (Some content), emit (EvGet url) (tick w)).
Proof. intros H. unfold try_get, try_except, bind, requests_get. now rewrite H. Qed.

Lemma retry_get_fails url n :
  forall w, (forall k, k < n -> net (clock w + k) url = None) ->
  retry_get net n url w = (Ok None, failed_retries n url w).
Proof.
  induction n as [|n IH]; intros w H; [reflexivity|].
  cbn [retry_get failed_retries].
  unfold bind at 1. unfold print at 1. cbv beta iota.
  unfold bind at 1. unfold time_sleep at 1. cbv beta iota.
  unfold bind at 1. rewrite try_get_none.
  - apply IH. intros k Hk. cbn [clock emit tick].
    replace (S (clock w) + k) with (clock w + S k) by lia. apply H. lia.
  - cbn [clock emit]. replace (clock w) with (clock w + 0) by lia. apply H. lia.
Qed.

Lemma failed_retries_frame n url :
  forall w, clock (failed_retries n url w) = clock w + n /\
            fs (failed_retries n url w) = fs w /\
            output_csv (failed_retries n url w) = output_csv w.
Proof.
  induction n as [|n IH]; intros w; cbn [failed_retries].
  - repeat split. lia.
  - destruct (IH (emit (EvGet url) (tick (emit (EvSleep 5)
        (emit (EvPrint (nl +:+ "Connection problem. Sleeping to try again." +:+ nl))
           w)))))
      as (Hc & Hf & Ho).
    rewrite Hc, Hf, Ho. cbn [clock fs output_csv emit tick]. repeat split. lia.
Qed.

Lemma fetch_page_fails url w :
  (forall k, k < 6 -> net (clock w + k) url = None) ->
  fetch_page net url w = (Ok None, failed_retries 5 url (emit (EvGet url) (tick w))).
Proof.
  intros H. unfold fetch_page. unfold bind at 1. rewrite try_get_none.
  - apply retry_get_fails. intros k Hk. cbn [clock emit tick].
    replace (S (clock w) + k) with (clock w + S k) by lia. apply H. lia.
  - replace (clock w) with (clock w + 0) by lia. apply H. lia.
Qed.

Lemma fetch_page_first_try url w content :
  net (clock w) url = Some content ->
  fetch_page net url w = (Ok (Some content), emit (EvGet url) (tick w)).
Proof.
  intros H. unfold fetch_page. unfold bind at 1. now rewrite (try_get_some _ _ content).
Qed.

End Fetch.

(** ** Computations that end *)

Lemma ends_ret {A} (a : A) : ends (ret a).
Proof. intros w. exact I. Qed.

Lemma ends_raise {A} e : is_Exception e = true -> ends (@raise A e).
Proof. intros H w. exact H. Qed.

Lemma ends_bind {A B} (m : M A) (k : A -> M B) :
  ends m -> (forall a, ends (k a)) -> ends (bind m k).
Proof.
  intros Hm Hk w. specialize (Hm w). unfold bind.
  destruct (m w) as [[a| e |] w']; cbn [fst] in *; try exact Hm.
  apply Hk.
Qed.

Lemma ends_if {A} (b : bool) (m1 m2 : M A) :
  ends m1 -> ends m2 -> ends (if b then m1 else m2).
Proof. now destruct b. Qed.

Lemma ends_print s : ends (print s).
Proof. intros w. exact I. Qed.

Lemma ends_os_path_isfile p : ends (os_path_isfile p).
Proof. intros w. exact I. Qed.

Lemma ends_getitem tag key : ends (getitem tag key).
Proof.
  unfold getitem. destruct tag as [t|]; [|now apply ends_raise].
  destruct (tag_attrs t !! key); [apply ends_ret | now apply ends_raise].
Qed.

Lemma ends_writerow row : ends (writerow row).
Proof. intros w. unfold writerow. now destruct (output_csv w). Qed.

Lemma ends_create_file p content e : ends (create_file p content e).
Proof.
  intros w. destruct (create_file_cases p content e w) as [->|(x & Hx & ->)];
    [exact I | exact Hx].
Qed.

Lemma ends_requests_get net url : ends (requests_get net url).
Proof. intros w. unfold requests_get. now destruct (net (clock w) url). Qed.

Lemma ends_scrape_elements elements images_list :
  ends (scrape_elements elements images_list).
Proof.
  revert images_list.
  induction elements as [|element rest IH]; intros images_list; cbn [scrape_elements].
  - apply ends_ret.
  - apply ends_bind; [apply ends_getitem|]. intros src.
    apply ends_bind; [apply ends_getitem|]. intros href. apply IH.
Qed.

Lemma ends_process_image sha1_hexdigest net folderp image n :
  ends (process_image sha1_hexdigest net folderp image n).
Proof.
  unfold process_image.
  apply ends_bind; [apply ends_print|]. intros _.
  apply ends_bind; [apply ends_writerow|]. intros _.
  apply ends_bind; [apply ends_os_path_isfile|]. intros downloaded.
  apply ends_bind; [|intros _; apply ends_ret].
  apply ends_if; [|apply ends_ret].
  unfold download. apply ends_bind; [apply ends_requests_get|]. intros content.
  apply ends_if; [apply ends_create_file | apply ends_print].
Qed.

Lemma ends_for_images sha1_hexdigest net folderp image_list n :
  ends (for_images sha1_hexdigest net folderp image_list n).
Proof.
  revert n. induction image_list as [|image rest IH]; intros n; cbn [for_images].
  - apply ends_ret.
  - apply ends_bind; [apply ends_process_image|]. intros m. apply IH.
Qed.

Lemma ends_process_page sha1_hexdigest net folderp n soup :
  ends (process_page sha1_hexdigest net folderp n soup).
Proof.
  unfold process_page. apply ends_bind; [apply ends_scrape_elements|].
  intros image_list. apply ends_for_images.
Qed.

Lemma clock_emit e w : clock (emit e w) = clock w.
Proof. reflexivity. Qed.

Lemma fs_emit e w : fs (emit e w) = fs w.
Proof. reflexivity. Qed.

Lemma output_csv_emit e w : output_csv (emit e w) = output_csv w.
Proof. reflexivity. Qed.

Lemma gave_up_frame url w :
  clock (gave_up url w) = clock w + 6 /\
  fs (gave_up url w) = fs w /\
  output_csv (gave_up url w) = output_csv w.
Proof.
  destruct (failed_retries_frame 5 url (emit (EvGet url) (tick w))) as (Hc & Hf & Ho).
  unfold gave_up. rewrite !clock_emit, !fs_emit, !output_csv_emit, Hc, Hf, Ho.
  rewrite clock_emit, fs_emit, output_csv_emit.
  repeat split. unfold tick, clock. lia.
Qed.

(** ** The turns of the loop *)

Section Turns.

Variable sha1_hexdigest : string -> string.
Variable BeautifulSoup : bytes -> Soup.
Variable net : nat -> string -> option bytes.

Lemma while_pages_gave_up fuel folderp url num_images cur_page soup w :
  num_images < max_images ->
  (forall k, k < 6 -> net (clock w + k) url = None) ->
  while_pages sha1_hexdigest BeautifulSoup net (S fuel) folderp url
              num_images cur_page soup w =
  bind (load_local soup)
       (fun page =>
          url' <- scrape_next_link page url cur_page ;;
          while_pages sha1_hexdigest BeautifulSoup net fuel folderp url'
                      num_images (cur_page + 1) soup)
       (gave_up url w).
Proof.
  intros Hlt Hnet. cbn [while_pages].
  apply Nat.ltb_lt in Hlt. rewrite Hlt.
  unfold bind at 1. rewrite fetch_page_fails by exact Hnet.
  unfold bind at 1. unfold print at 1. cbv beta iota.
  unfold bind at 1. unfold print at 1. cbv beta iota.
  reflexivity.
Qed.

(** C1, as the code has it.  The first page cannot be fetched: after the
    request and its five retries the handler reads the local variable [soup],
    which nothing has assigned yet, so the run ends there with
    [UnboundLocalError] instead of moving on; no row is written and no file
    is touched. *)
Theorem first_page_failure_ends_the_run
  fuel folderp url num_images cur_page w :
  num_images < max_images ->
  (forall k, k < 6 -> net (clock w + k) url = None) ->
  let out := while_pages sha1_hexdigest BeautifulSoup net (S fuel) folderp url
                         num_images cur_page None w in
  fst out = Raise UnboundLocalError /\
  exit_status (fst out) = Some 1 /\
  output_csv (snd out) = output_csv w /\
  fs (snd out) = fs w /\
  clock (snd out) = clock w + 6.
Proof.
  intros Hlt Hnet out.
  assert (E : out = (Raise UnboundLocalError, gave_up url w)).
  { subst out. now rewrite while_pages_gave_up. }
  rewrite E. cbn [fst snd exit_status].
  destruct (gave_up_frame url w) as (Hc & Hf & Ho).
  rewrite Hc, Hf, Ho. repeat split.
Qed.

(** A later page cannot be fetched: [soup] still holds the page before,
    whose next link is the address that has just failed, and the loop asks
    for that address again with the page counter one higher. *)
Lemma later_page_failure_asks_again
  fuel folderp url num_images cur_page page tag href w :
  num_images < max_images ->
  (forall k, k < 6 -> net (clock w + k) url = None) ->
  find_a_frGj1b page = Some tag -> tag_attrs tag !! "href" = Some href ->
  while_pages sha1_hexdigest BeautifulSoup net (S fuel) folderp url
              num_images cur_page (Some page) w =
  while_pages sha1_hexdigest BeautifulSoup net fuel folderp
              ("https://www.google.com" +:+ href) num_images (cur_page + 1) (Some page)
              (emit (EvPrint (nl +:+ ("https://www.google.com" +:+ href) +:+ nl)) (gave_up url w)).
Proof.
  intros Hlt Hnet Htag Hhref. rewrite while_pages_gave_up by assumption.
  unfold bind at 1. cbn [load_local ret].
  unfold bind at 1. now rewrite (scrape_next_link_some _ _ _ _ tag href).
Qed.

(** C2, amended.  A page without the next-page anchor, whether it was got
    at the first request or at a retry: the lookup raises [TypeError] (it
    yields no value and prints nothing), and the turn of the loop that
    fetched the page ends with an exception, never with a return:
    [TypeError] right after the page's records when these were all
    processed.  The exit status is 1. *)
Theorem missing_next_link_raises
  fuel folderp url num_images cur_page soup w content w0 :
  num_images < max_images ->
  fetch_page net url w = (Ok (Some content), w0) ->
  find_a_frGj1b (BeautifulSoup content) = None ->
  let page := BeautifulSoup content in
  let out := while_pages sha1_hexdigest BeautifulSoup net (S fuel) folderp url
                         num_images cur_page soup w in
  (forall url' index w', scrape_next_link page url' index w' = (Raise TypeError, w')) /\
  (exists e, fst out = Raise e /\ is_Exception e = true) /\
  exit_status (fst out) = Some 1 /\
  (forall n w1,
     process_page sha1_hexdigest net folderp num_images page w0 = (Ok n, w1) ->
     out = (Raise TypeError, emit (EvPrint "** Next page ** ") w1)).
Proof.
  intros Hlt Hnet Hnone page out.
  assert (Hlink : forall url' index w',
             scrape_next_link page url' index w' = (Raise TypeError, w')).
  { intros. now apply scrape_next_link_none. }
  assert (E : out =
    match process_page sha1_hexdigest net folderp num_images page w0 with
    | (Ok _, w1) => (Raise TypeError, emit (EvPrint "** Next page ** ") w1)
    | (Raise e, w1) => (Raise e, w1)
    | (OutOfFuel, w1) => (OutOfFuel, w1)
    end).
  { subst out. cbn [while_pages]. apply Nat.ltb_lt in Hlt. rewrite Hlt.
    unfold bind at 1. rewrite Hnet.
    unfold bind at 1. unfold page_body. fold page. unfold bind at 1.
    destruct (process_page _ _ _ _ _ _) as [[n| e |] w1]; try reflexivity.
    unfold bind at 1. unfold print at 1. cbv beta iota.
    unfold bind at 1. now rewrite Hlink. }
  pose proof (ends_process_page sha1_hexdigest net folderp num_images page w0)
    as Hends.
  split; [exact Hlink|].
  rewrite E. destruct (process_page _ _ _ _ _ _) as [[n| e |] w1]; cbn [fst] in *.
  - repeat split.
    + now exists TypeError.
    + intros n' w1' H. now inversion H.
  - repeat split.
    + now exists e.
    + now destruct e.
    + intros n' w1' H. discriminate H.
  - contradiction.
Qed.

End Turns.

(** * The properties on the small web *)

Module Runs.

Import Scenario.

(** A whole run: three rows over two pages, then the missing link. *)
Example two_pages_three_rows :
  map rank_pos (rows_written (snd (main digest parser web "puppy" 5 (initial_world ∅))))
  = [1; 2; 3].
Proof. vm_compute. reflexivity. Qed.

(** The network is down from the start: the run ends on the unassigned
    [soup], after six requests and five sleeps. *)
Example network_down_from_the_start :
  let out := main digest parser web_down "puppy" 5 (initial_world ∅) in
  fst out = Raise UnboundLocalError /\ clock (snd out) = 6 /\
  rows_written (snd out) = [] /\
  length (List.filter (fun e => match e with EvSleep _ => true | _ => false end)
                 (log (snd out))) = 5.
Proof. vm_compute. repeat split. Qed.

(** The images cannot be fetched: the run ends at the first of them, with
    its row written, one request for it and no sleep. *)
Example images_down :
  let out := main digest parser web_images_down "puppy" 5 (initial_world ∅) in
  fst out = Raise RequestException /\ exit_status (fst out) = Some 1 /\
  map rank_pos (rows_written (snd out)) = [1] /\
  clock (snd out) = 2 /\
  List.filter (fun e => match e with EvSleep _ => true | _ => false end) (log (snd out)) = [].
Proof. vm_compute. repeat split. Qed.

End Runs.

Lemma first_page_failure_ends_the_run_witness :
  let out := while_pages Scenario.digest Scenario.parser Scenario.web_down 1 "puppy"
                         (query_url "puppy") 0 1 None (initial_world ∅) in
  fst out = Raise UnboundLocalError /\
  exit_status (fst out) = Some 1 /\
  output_csv (snd out) = output_csv (initial_world ∅) /\
  fs (snd out) = fs (initial_world ∅) /\
  clock (snd out) = clock (initial_world ∅) + 6.
Proof.
  apply (first_page_failure_ends_the_run Scenario.digest Scenario.parser
           Scenario.web_down 0 "puppy" (query_url "puppy") 0 1 (initial_world ∅)).
  - unfold max_images. lia.
  - intros k _. reflexivity.
Defined.

Lemma missing_next_link_is_not_a_clean_end :
  let out := main Scenario.digest Scenario.parser Scenario.web "puppy" 5
                  (initial_world ∅) in
  find_a_frGj1b Scenario.page2 = None /\
  fst out = Raise TypeError /\
  exit_status (fst out) = Some 1 /\
  ~ In (EvPrint (nl +:+ "Finished." +:+ nl)) (log (snd out)).
Proof.
  vm_compute. repeat split.
  intros H. repeat (destruct H as [H|H]; [discriminate H|]). exact H.
Qed.

Lemma missing_next_link_raises_witness :
  let net := fun (n : nat) (_ : string) => if n <? 3 then None else Some [Byte.x02] in
  let url := "https://www.google.com/search?start=20" in
  let w0 := snd (fetch_page net url Scenario.midrun) in
  let page := Scenario.parser [Byte.x02] in
  let out := while_pages Scenario.digest Scenario.parser net 1 "puppy" url 2 2 None
                         Scenario.midrun in
  (forall url' index w', scrape_next_link page url' index w' = (Raise TypeError, w')) /\
  (exists e, fst out = Raise e /\ is_Exception e = true) /\
  exit_status (fst out) = Some 1 /\
  (forall n w1,
     process_page Scenario.digest net "puppy" 2 page w0 = (Ok n, w1) ->
     out = (Raise TypeError, emit (EvPrint "** Next page ** ") w1)).
Proof.
  apply (missing_next_link_raises Scenario.digest Scenario.parser
           (fun (n : nat) (_ : string) => if n <? 3 then None else Some [Byte.x02])
           0 "puppy" "https://www.google.com/search?start=20" 2 2 None Scenario.midrun
           [Byte.x02]).
  - unfold max_images. lia.
  - vm_compute. reflexivity.
  - reflexivity.
Defined.

Lemma local_path_is_a_function_of_the_address_witness :
  let r1 := mkRow 1 "http://img/a" "http://site/a" "puppy/d12.jpg" in
  let r2 := mkRow 1 "http://img/a" "http://site/a" "kitten/d12.jpg" in
  let name := Scenario.digest (image_url r1) +:+ ".jpg" in
  download_file r1 = os_path_join "puppy" name /\
  download_file r2 = os_path_join "kitten" name /\
  ("puppy" = "kitten" -> download_file r1 = download_file r2) /\
  ((forall s, has_sep (Scenario.digest s) = false) ->
   os_path_basename (download_file r1) = name /\
   os_path_basename (download_file r2) = name).
Proof.
  apply (local_path_is_a_function_of_the_address Scenario.digest
           Scenario.parser Scenario.parser Scenario.web
           (fun n url => Scenario.web_images_down n
                           (if String.eqb url (query_url "kitten")
                            then query_url "puppy" else url))
           "puppy" "kitten" 5 1 ∅ ∅).
  - vm_compute. left. reflexivity.
  - vm_compute. left. reflexivity.
  - reflexivity.
Defined.

Lemma row_is_written_before_the_download_witness :
  let row := row_of Scenario.digest "puppy" (0 + 1) Scenario.image_bb in
  let out := process_image Scenario.digest Scenario.web "puppy" Scenario.image_bb 0
                           Scenario.midrun in
  output_csv (snd out) = Some ([] ++ [row]) /\
  (exists tail,
     log (snd out) = log Scenario.midrun ++ [counter (0 + 1); EvWriteRow row] ++ tail /\
     (tail = [] \/ exists rest, tail = EvGet (img_image_url Scenario.image_bb) :: rest)) /\
  (forall net',
     output_csv (snd (process_image Scenario.digest net' "puppy" Scenario.image_bb 0
                                    Scenario.midrun))
     = output_csv (snd out)).
Proof.
  apply (row_is_written_before_the_download Scenario.digest Scenario.web "puppy"
           Scenario.image_bb 0 Scenario.midrun []).
  reflexivity.
Defined.

Lemma existing_image_is_not_downloaded_witness :
  let row := row_of Scenario.digest "puppy" (0 + 1) Scenario.image_a in
  let out := process_image Scenario.digest Scenario.web "puppy" Scenario.image_a 0
                           Scenario.midrun in
  fst out = Ok (0 + 1) /\
  output_csv (snd out) = Some ([] ++ [row]) /\
  fs (snd out) = fs Scenario.midrun /\
  clock (snd out) = clock Scenario.midrun /\
  log (snd out) = log Scenario.midrun ++ [counter (0 + 1); EvWriteRow row].
Proof.
  apply (existing_image_is_not_downloaded Scenario.digest Scenario.web "puppy"
           Scenario.image_a 0 Scenario.midrun []).
  - reflexivity.
  - vm_compute. reflexivity.
Defined.

Lemma failed_image_request_ends_the_loop_witness :
  let row := row_of Scenario.digest "puppy" (0 + 1) Scenario.image_bb in
  let out := for_images Scenario.digest Scenario.web_images_down "puppy"
                        [Scenario.image_bb; Scenario.image_a] 0 Scenario.midrun in
  fst out = Raise RequestException /\
  output_csv (snd out) = Some ([] ++ [row]) /\
  fs (snd out) = fs Scenario.midrun /\
  clock (snd out) = S (clock Scenario.midrun) /\
  log (snd out) =
    log Scenario.midrun
    ++ [counter (0 + 1); EvWriteRow row; EvGet (img_image_url Scenario.image_bb)].
Proof.
  apply (failed_image_request_ends_the_loop Scenario.digest Scenario.web_images_down
           "puppy" Scenario.image_bb [Scenario.image_a] 0 Scenario.midrun []).
  - reflexivity.
  - vm_compute. reflexivity.
  - reflexivity.
Defined.

Lemma empty_image_leaves_no_file_witness :
  let row := row_of Scenario.digest "puppy" (0 + 1) Scenario.image_bb in
  let out := process_image Scenario.digest Scenario.web "puppy" Scenario.image_bb 0
                           Scenario.midrun in
  fst out = Ok (0 + 1) /\
  output_csv (snd out) = Some ([] ++ [row]) /\
  download_file row = image_fp Scenario.digest "puppy" (img_image_url Scenario.image_bb) /\
  fs (snd out) = fs Scenario.midrun /\
  is_file (fs (snd out)) (download_file row) = false /\
  for_images Scenario.digest Scenario.web "puppy" [Scenario.image_bb; Scenario.image_a] 0
             Scenario.midrun =
  for_images Scenario.digest Scenario.web "puppy" [Scenario.image_a] (0 + 1) (snd out).
Proof.
  apply (empty_image_leaves_no_file Scenario.digest Scenario.web "puppy"
           Scenario.image_bb [Scenario.image_a] 0 Scenario.midrun []).
  - reflexivity.
  - vm_compute. reflexivity.
  - reflexivity.
Defined.

(** * The other paths of the script *)

(** ** Pages as [scrape_images] reads them *)

(** [s[7:]] drops seven characters, not seven bytes. *)
Example str_drop_counts_characters :
  str_drop 7 "/ürl?q=http://site/u" = "http://site/u" /\
  str_drop 7 "/url?q=http://site/a" = "http://site/a" /\
  str_drop 7 "/url" = "" /\
  str_drop 2 "aü€b" = "€b".
Proof. repeat split. Qed.

Example scrape_images_of_a_link_that_is_not_ascii :
  scrape_images Accented.page (initial_world ∅)
  = (Ok [mkImage "http://img/u" "http://site/u";
         mkImage "http://img/a" "http://site/a"], initial_world ∅).
Proof. reflexivity. Qed.

Lemma prefix_refl s : String.prefix s s = true.
Proof.
  induction s as [|c s IH]; [reflexivity|].
  cbn. destruct (ascii_dec c c); [exact IH | congruence].
Qed.

Lemma prefix_trans a : forall b c,
  String.prefix a b = true -> String.prefix b c = true -> String.prefix a c = true.
Proof.
  induction a as [|x a IH]; intros b c Hab Hbc; [now destruct c|].
  destruct b as [|y b]; [discriminate Hab|].
  destruct c as [|z c]; [discriminate Hbc|].
  cbn in *.
  destruct (ascii_dec x y) as [->|]; [|discriminate Hab].
  destruct (ascii_dec y z) as [->|]; [|discriminate Hbc].
  now apply (IH b c).
Qed.

Lemma prefix_empty s : s <> "" -> String.prefix s "" = false.
Proof. destruct s; [congruence | reflexivity]. Qed.

Lemma split1_head_prefix sep0 s : String.prefix (split1_head sep0 s) s = true.
Proof.
  induction s as [|c s IH]; cbn [split1_head].
  - now destruct (String.prefix sep0 "").
  - destruct (String.prefix sep0 (String c s)); [reflexivity|].
    cbn. destruct (ascii_dec c c); [exact IH | congruence].
Qed.

Lemma occurs_empty sep0 : sep0 <> "" -> occurs sep0 "" = false.
Proof. intros H. cbn [occurs]. now rewrite prefix_empty. Qed.

Lemma split1_head_no_sep sep0 s :
  sep0 <> "" -> occurs sep0 (split1_head sep0 s) = false.
Proof.
  intros Hsep. induction s as [|c s IH]; cbn [split1_head].
  - destruct (String.prefix sep0 ""); now apply occurs_empty.
  - destruct (String.prefix sep0 (String c s)) eqn:E; [now apply occurs_empty|].
    cbn [occurs].
    destruct (String.prefix sep0 (String c (split1_head sep0 s))) eqn:E2; [|exact IH].
    rewrite (prefix_trans _ _ (String c s) E2) in E; [discriminate E|].
    cbn. destruct (ascii_dec c c); [apply split1_head_prefix | congruence].
Qed.

Lemma getitem_ok tag key w v w' :
  getitem tag key w = (Ok v, w') ->
  w' = w /\ exists t, tag = Some t /\ tag_attrs t !! key = Some v.
Proof.
  unfold getitem. destruct tag as [t|]; [|discriminate].
  destruct (tag_attrs t !! key) as [v0|] eqn:E; [|discriminate].
  intros H. inversion H; subst. split; [reflexivity|]. now exists t.
Qed.

Lemma getitem_has_attr tag key w :
  has_attr tag key = true -> exists v, getitem tag key w = (Ok v, w).
Proof.
  unfold has_attr, getitem. destruct tag as [t|]; [|discriminate].
  destruct (tag_attrs t !! key) as [v|]; [|discriminate]. intros _. now exists v.
Qed.

Lemma getitem_no_attr tag key w :
  has_attr tag key = false ->
  exists e, (e = TypeError \/ e = KeyError) /\ getitem tag key w = (Raise e, w).
Proof.
  unfold has_attr, getitem. destruct tag as [t|].
  - destruct (tag_attrs t !! key) as [v|]; [discriminate|].
    intros _. exists KeyError. split; [now right | reflexivity].
  - intros _. exists TypeError. split; [now left | reflexivity].
Qed.

Lemma scrape_elements_ok elements :
  forall images_list w images w',
  scrape_elements elements images_list w = (Ok images, w') ->
  w' = w /\ exists new, images = images_list ++ new /\ Forall2 scraped elements new.
Proof.
  induction elements as [|element rest IH]; intros images_list w images w' H.
  - cbn in H. inversion H; subst. split; [reflexivity|].
    exists []. split; [now rewrite app_nil_r | constructor].
  - cbn [scrape_elements] in H. unfold bind at 1 in H.
    destruct (getitem (element_img element) "src" w) as [[src| e |] w1] eqn:E1;
      try discriminate H.
    apply getitem_ok in E1 as [-> (img & Himg & Hsrc)].
    unfold bind at 1 in H.
    destruct (getitem (element_a element) "href" w) as [[href| e |] w2] eqn:E2;
      try discriminate H.
    apply getitem_ok in E2 as [-> (a & Ha & Hhref)].
    apply IH in H as [-> (new & -> & Hnew)]. split; [reflexivity|].
    exists (mkImage src (split1_head sep (str_drop 7 href)) :: new).
    split; [now rewrite <- app_assoc|].
    constructor; [|exact Hnew]. now exists img, a, href.
Qed.

Lemma scrape_elements_unreadable elements :
  forall images_list w,
  Exists (fun element => readable element = false) elements ->
  exists e, (e = TypeError \/ e = KeyError) /\
            scrape_elements elements images_list w = (Raise e, w).
Proof.
  induction elements as [|element rest IH]; intros images_list w H.
  - now apply Exists_nil in H.
  - cbn [scrape_elements]. unfold bind at 1.
    destruct (has_attr (element_img element) "src") eqn:E1.
    + destruct (getitem_has_attr _ _ w E1) as [src ->].
      unfold bind at 1.
      destruct (has_attr (element_a element) "href") eqn:E2.
      * destruct (getitem_has_attr _ _ w E2) as [href ->].
        apply IH. apply Exists_cons in H as [H|H]; [|exact H].
        unfold readable in H. rewrite E1, E2 in H. discriminate H.
      * destruct (getitem_no_attr _ _ w E2) as (e & He & ->). now exists e.
    + destruct (getitem_no_attr _ _ w E1) as (e & He & ->). now exists e.
Qed.

Lemma scrape_elements_readable elements :
  forall images_list w,
  Forall (fun element => readable element = true) elements ->
  exists images, scrape_elements elements images_list w = (Ok images, w).
Proof.
  induction elements as [|element rest IH]; intros images_list w H.
  - now exists images_list.
  - apply Forall_cons in H as [H Hrest]. unfold readable in H.
    apply andb_true_iff in H as [E1 E2].
    cbn [scrape_elements]. unfold bind at 1.
    destruct (getitem_has_attr _ _ w E1) as [src ->].
    unfold bind at 1.
    destruct (getitem_has_attr _ _ w E2) as [href ->].
    now apply IH.
Qed.

(** X1. When [scrape_images] returns, it has changed nothing and its list
    has one entry for each result container of the page, in the order of the
    page: the [src] of the container's image and the [href] of its link,
    without its first seven characters and cut before the first
    ["&sa=U&ved=2"]. *)
Theorem scrape_images_reads_every_container page w images w' :
  scrape_images page w = (Ok images, w') ->
  w' = w /\ Forall2 scraped (find_all_div_lIMUZd page) images.
Proof.
  intros H. apply scrape_elements_ok in H as [-> (new & -> & Hnew)].
  split; [reflexivity | exact Hnew].
Qed.

Lemma scrape_images_reads_every_container_witness :
  initial_world ∅ = initial_world ∅ /\
  Forall2 scraped (find_all_div_lIMUZd Accented.page)
          [mkImage "http://img/u" "http://site/u";
           mkImage "http://img/a" "http://site/a"].
Proof.
  apply (scrape_images_reads_every_container Accented.page (initial_world ∅)
           [mkImage "http://img/u" "http://site/u";
            mkImage "http://img/a" "http://site/a"] (initial_world ∅)).
  reflexivity.
Defined.

(** X2. One result container without an image or a link, or whose image has no
    [src] or whose link has no [href], and [scrape_images] raises [TypeError]
    or [KeyError] having changed nothing: the list of the containers before
    it is lost, and the page is left without a row written or anything
    requested. *)
Theorem unreadable_container_loses_the_page
  sha1_hexdigest net folderp num_images page w :
  Exists (fun element => readable element = false) (find_all_div_lIMUZd page) ->
  exists e, (e = TypeError \/ e = KeyError) /\
    scrape_images page w = (Raise e, w) /\
    process_page sha1_hexdigest net folderp num_images page w = (Raise e, w).
Proof.
  intros H.
  destruct (scrape_elements_unreadable _ [] w H) as (e & He & E).
  exists e. split; [exact He|]. split; [exact E|].
  unfold process_page, bind. unfold scrape_images. now rewrite E.
Qed.

Lemma unreadable_container_loses_the_page_witness :
  exists e, (e = TypeError \/ e = KeyError) /\
    scrape_images Broken.page Scenario.midrun = (Raise e, Scenario.midrun) /\
    process_page Scenario.digest Scenario.web "puppy" 0 Broken.page Scenario.midrun
    = (Raise e, Scenario.midrun).
Proof.
  apply (unreadable_container_loses_the_page Scenario.digest Scenario.web "puppy" 0
           Broken.page Scenario.midrun).
  apply Exists_cons_tl, Exists_cons_hd. reflexivity.
Defined.

(** X3. [scrape_images] returns a list exactly when every result container
    of the page can be read; and it never changes the world. *)
Theorem scrape_images_returns_iff_readable page w :
  (exists images, scrape_images page w = (Ok images, w)) <->
  Forall (fun element => readable element = true) (find_all_div_lIMUZd page).
Proof.
  split.
  - intros [images H]. apply Forall_forall. intros element Hin.
    destruct (readable element) eqn:E; [reflexivity|].
    assert (Hex : Exists (fun element => readable element = false)
                         (find_all_div_lIMUZd page)).
    { apply Exists_exists. now exists element. }
    destruct (scrape_elements_unreadable _ [] w Hex) as (e & _ & E').
    unfold scrape_images in H. rewrite E' in H. discriminate H.
  - intros H. now apply scrape_elements_readable.
Qed.

Lemma scraped_no_sep elements images :
  Forall2 scraped elements images ->
  Forall (fun image => occurs sep (img_image_info_url image) = false) images.
Proof.
  induction 1 as [|element image elements images (img & a & href & _ & _ & _ & _ & E) _ IH];
    constructor; [|exact IH].
  rewrite E. now apply split1_head_no_sep.
Qed.

(** X4. No entry of the list of [scrape_images] has the separator
    ["&sa=U&ved=2"] in its [image_info_url]: what follows its first
    occurrence in the link, and the separator itself, are cut off. *)
Theorem info_url_has_no_separator page w images w' image :
  scrape_images page w = (Ok images, w') ->
  In image images ->
  occurs sep (img_image_info_url image) = false.
Proof.
  intros H Hin. apply scrape_elements_ok in H as [_ (new & -> & Hnew)].
  apply scraped_no_sep in Hnew. rewrite Forall_forall in Hnew.
  apply Hnew. now apply list_elem_of_In.
Qed.

Lemma info_url_has_no_separator_witness :
  occurs sep (img_image_info_url (mkImage "http://img/a" "http://site/a")) = false.
Proof.
  apply (info_url_has_no_separator Scenario.page1 (initial_world ∅)
           [mkImage "http://img/a" "http://site/a";
            mkImage "http://img/bb" "http://site/b"] (initial_world ∅)).
  - reflexivity.
  - left. reflexivity.
Defined.

(** ** The rows of a page *)

Lemma process_image_rows sha1_hexdigest net folderp image num_images w rows :
  output_csv w = Some rows ->
  let out := process_image sha1_hexdigest net folderp image num_images w in
  output_csv (snd out)
  = Some (rows ++ [row_of sha1_hexdigest folderp (num_images + 1) image]) /\
  (forall m, fst out = Ok m -> m = num_images + 1).
Proof.
  intros Hcsv out. subst out.
  rewrite (process_image_unfold _ _ _ _ _ _ rows Hcsv).
  set (row := row_of sha1_hexdigest folderp (num_images + 1) image).
  destruct (is_file (fs w) _).
  - split; [reflexivity|]. intros m H. now inversion H.
  - unfold bind.
    pose proof (download_keeps_rows net
      (image_fp sha1_hexdigest folderp (img_image_url image)) (img_image_url image)
      (recorded row rows w)) as K.
    destruct (download net _ _ _) as [[[]| |] w']; unfold ret; cbn [fst snd] in *;
      (split; [exact K|]); intros m H; inversion H; reflexivity.
Qed.

Lemma for_images_rows sha1_hexdigest net folderp image_list :
  forall num_images w rows,
  output_csv w = Some rows ->
  let out := for_images sha1_hexdigest net folderp image_list num_images w in
  exists done rest,
    image_list = done ++ rest /\
    output_csv (snd out)
    = Some (rows ++ rows_of sha1_hexdigest folderp num_images done) /\
    (forall m, fst out = Ok m -> rest = [] /\ m = num_images + length image_list).
Proof.
  induction image_list as [|image images IH]; intros num_images w rows Hcsv out.
  - exists [], []. subst out. cbn. rewrite app_nil_r.
    repeat split; try assumption. injection H as <-. lia.
  - subst out. cbn [for_images]. unfold bind.
    destruct (process_image_rows sha1_hexdigest net folderp image num_images w rows Hcsv)
      as [Hrows Hm].
    destruct (process_image sha1_hexdigest net folderp image num_images w)
      as [[m| e |] w1]; cbn [fst snd] in *.
    + pose proof (Hm m eq_refl) as Em. subst m.
      destruct (IH (num_images + 1) w1 _ Hrows) as (done & rest & E & Hout & Hok).
      exists (image :: done), rest. split; [cbn; now rewrite E|].
      split; [cbn [rows_of]; now rewrite Hout, <- app_assoc|].
      intros m' H'. destruct (Hok m' H') as [Hr Hm']. split; [exact Hr|].
      rewrite Hm'. cbn [length]. lia.
    + exists [image], images. split; [reflexivity|]. split; [exact Hrows|].
      intros m H. discriminate H.
    + exists [image], images. split; [reflexivity|]. split; [exact Hrows|].
      intros m H. discriminate H.
Qed.

(** X5. The loop over the records of a page adds one row per record, in
    the order of the page, ranked on from the count it starts with, each row
    with the record's two addresses and its local path.  When the loop
    returns, every record of the page has its row and the count has grown by
    the number of records: the target [max_images] is not looked at inside a
    page.  When it raises, the rows are those of the first records, up to
    and including the one at which it raised. *)
Theorem page_rows_follow_the_records
  sha1_hexdigest net folderp image_list num_images w rows :
  output_csv w = Some rows ->
  let out := for_images sha1_hexdigest net folderp image_list num_images w in
  (exists done rest,
     image_list = done ++ rest /\
     output_csv (snd out)
     = Some (rows ++ rows_of sha1_hexdigest folderp num_images done)) /\
  (forall m, fst out = Ok m ->
     m = num_images + length image_list /\
     output_csv (snd out)
     = Some (rows ++ rows_of sha1_hexdigest folderp num_images image_list)).
Proof.
  intros Hcsv out.
  destruct (for_images_rows sha1_hexdigest net folderp image_list num_images w rows Hcsv)
    as (done & rest & E & Hout & Hok). fold out in Hout, Hok.
  split; [now exists done, rest|].
  intros m H. destruct (Hok m H) as [-> ->]. split; [reflexivity|].
  rewrite app_nil_r in E. now rewrite E.
Qed.

Lemma page_rows_follow_the_records_witness :
  let image_list := [Scenario.image_a; Scenario.image_bb] in
  let out := for_images Scenario.digest Scenario.web "puppy" image_list 0
                        Scenario.midrun in
  (exists done rest,
     image_list = done ++ rest /\
     output_csv (snd out)
     = Some ([] ++ rows_of Scenario.digest "puppy" 0 done)) /\
  (forall m, fst out = Ok m ->
     m = 0 + length image_list /\
     output_csv (snd out)
     = Some ([] ++ rows_of Scenario.digest "puppy" 0 image_list)).
Proof.
  apply (page_rows_follow_the_records Scenario.digest Scenario.web "puppy"
           [Scenario.image_a; Scenario.image_bb] 0 Scenario.midrun []).
  reflexivity.
Defined.

(** ** A run that returns *)

Lemma triple_any {A} (P : World -> Prop) (m : M A) Q E :
  triple P m Q E -> triple P m Q (fun _ => True).
Proof. intros H. eapply triple_weaken; [exact H| | |]; auto. Qed.

Section Normal_end.

Variable sha1_hexdigest : string -> string.
Variable BeautifulSoup : bytes -> Soup.
Variable net : nat -> string -> option bytes.

Lemma while_pages_reached folderp fuel url n cur_page soup :
  triple (inv sha1_hexdigest folderp n)
         (while_pages sha1_hexdigest BeautifulSoup net fuel folderp url n cur_page soup)
         (fun _ => reached sha1_hexdigest folderp) (fun _ => True).
Proof.
  revert url n cur_page soup.
  induction fuel as [|fuel IH]; intros url n cur_page soup; cbn [while_pages].
  - intros w H. exact I.
  - destruct (n <? max_images) eqn:E.
    + eapply triple_bind;
        [eapply triple_any; apply triple_silent_inv, silent_fetch_page|].
      intros [content|]; cbv beta.
      * eapply triple_bind; [eapply triple_any; apply page_body_inv|].
        intros [[soup' n'] url']. apply IH.
      * eapply triple_bind; [eapply triple_any; apply triple_silent_inv, silent_print|].
        intros ?; cbv beta.
        eapply triple_bind; [eapply triple_any; apply triple_silent_inv, silent_print|].
        intros ?; cbv beta.
        eapply triple_bind;
          [eapply triple_any; apply triple_silent_inv, silent_load_local|].
        intros page.
        eapply triple_bind;
          [eapply triple_any; apply triple_silent_inv, silent_scrape_next_link|].
        intros url'. apply IH.
    + intros w H. exists n. split; [now apply Nat.ltb_ge in E | exact H].
Qed.

Variable query : string.

Lemma scrape_stock_reached fuel term :
  triple (ready sha1_hexdigest query)
         (scrape_stock sha1_hexdigest BeautifulSoup net fuel term)
         (fun _ => reached sha1_hexdigest query) (fun _ => True).
Proof.
  unfold scrape_stock.
  apply (triple_bind _ _ _ (fun d w => d = query /\ ready sha1_hexdigest query w)).
  - intros w H. cbn. split; [apply H | exact H].
  - intros d. apply triple_pure. intros ->.
    eapply triple_bind;
      [eapply triple_any; apply triple_silent_ready, silent_os_path_exists|].
    intros present; cbv beta.
    eapply triple_bind.
    + eapply triple_any. apply triple_silent_ready.
      apply silent_if; [apply silent_os_makedirs | apply silent_ret].
    + intros ?; cbv beta.
      eapply triple_weaken; [apply while_pages_reached| | |]; cbv beta.
      * intros w [_ H]. exact H.
      * intros _ w H. exact H.
      * intros w H. exact H.
Qed.

Lemma main_reached fuel :
  triple (fun w => output_csv w = None)
         (main sha1_hexdigest BeautifulSoup net query fuel)
         (fun _ w => reached sha1_hexdigest query w /\
                     exists l, log w = l ++ [EvPrint (nl +:+ "Finished." +:+ nl)])
         (fun _ => True).
Proof.
  assert (Hnil : rows_ok sha1_hexdigest query 0 []) by (split; [reflexivity|constructor]).
  unfold main.
  apply (triple_bind _ _ _ (fun _ => ready sha1_hexdigest query)).
  { intros w H. cbn. split; [reflexivity|].
    unfold inv, rows_written. cbn. now rewrite H. }
  intros _.
  apply (triple_bind _ _ _ (fun d w => d = query /\ ready sha1_hexdigest query w)).
  { intros w H. cbn. split; [apply H | exact H]. }
  intros d. apply triple_pure. intros ->.
  eapply triple_bind;
    [eapply triple_any; apply triple_silent_ready, silent_os_path_isdir|].
  intros is_dir0; cbv beta.
  eapply triple_bind;
    [eapply triple_any; apply triple_silent_ready;
     apply silent_if; [apply silent_os_makedirs | apply silent_ret]|].
  intros ?; cbv beta.
  eapply triple_bind;
    [eapply triple_any; apply triple_silent_ready, silent_os_path_isfile|].
  intros is_file0; cbv beta.
  apply (triple_bind _ _ _ (fun _ => ready sha1_hexdigest query)).
  { destruct is_file0; cbn [negb].
    - eapply triple_bind;
        [eapply triple_any; apply triple_silent_ready, silent_print|].
      intros ?; cbv beta. intros w H. exact I.
    - eapply triple_bind;
        [eapply triple_any; apply triple_silent_ready; unfold open_w;
         apply silent_create_file|].
      intros ?; cbv beta.
      apply (triple_bind _ _ _ (fun _ => ready sha1_hexdigest query)).
      + intros w [Hf _]. cbn. split; [exact Hf | exact Hnil].
      + intros ?. eapply triple_any. apply triple_silent_ready, silent_writeheader. }
  intros ?.
  eapply triple_bind; [apply scrape_stock_reached|].
  intros ?; cbv beta. intros w H. cbn. split; [exact H | eexists; reflexivity].
Qed.

End Normal_end.

(** X6. A run that returns has written [max_images] rows or more, and
    the last thing it did was to print ["Finished."]: the loop over the pages
    is only left, without an exception, when the count has reached the
    target. *)
Theorem run_that_returns_has_reached_the_target
  sha1_hexdigest BeautifulSoup net query fuel files :
  let out := main sha1_hexdigest BeautifulSoup net query fuel (initial_world files) in
  fst out = Ok tt ->
  max_images <= length (rows_written (snd out)) /\
  exists l, log (snd out) = l ++ [EvPrint (nl +:+ "Finished." +:+ nl)].
Proof.
  intros out Hok.
  pose proof (main_reached sha1_hexdigest BeautifulSoup net query fuel
                (initial_world files) eq_refl) as H.
  fold out in H. destruct out as [[[]| e |] w']; try discriminate Hok.
  cbn [snd]. destruct H as [(n & Hn & Hrank & _) Hlog]. split; [|exact Hlog].
  rewrite <- (length_map rank_pos), Hrank, length_seq. exact Hn.
Qed.

Lemma run_that_returns_has_reached_the_target_witness :
  let out := main Scenario.digest Full.parser Endless.web "puppy" 2 (initial_world ∅) in
  max_images <= length (rows_written (snd out)) /\
  exists l, log (snd out) = l ++ [EvPrint (nl +:+ "Finished." +:+ nl)].
Proof.
  apply (run_that_returns_has_reached_the_target Scenario.digest Full.parser
           Endless.web "puppy" 2 ∅).
  vm_compute. reflexivity.
Defined.

(** ** The files a run finds *)

Lemma keeps_same {A} (m : M A) : (forall w, fs (snd (m w)) = fs w) -> keeps_files m.
Proof. intros H w. now rewrite H. Qed.

(** The rule for a sequence, at one world: what follows may use what the
    first computation returned there. *)
Lemma keeps_bind_at {A B} (m : M A) (k : A -> M B) w :
  fs w ⊆ fs (snd (m w)) ->
  (forall a w', m w = (Ok a, w') -> fs w' ⊆ fs (snd (k a w'))) ->
  fs w ⊆ fs (snd (bind m k w)).
Proof.
  intros Hm Hk. unfold bind.
  destruct (m w) as [[a| e |] w'] eqn:E; cbn [snd] in *; try exact Hm.
  etrans; [exact Hm | now apply Hk].
Qed.

Lemma keeps_bind {A B} (m : M A) (k : A -> M B) :
  keeps_files m -> (forall a, keeps_files (k a)) -> keeps_files (bind m k).
Proof. intros Hm Hk w. apply keeps_bind_at; [apply Hm|]. intros a w' _. apply Hk. Qed.

Lemma keeps_try {A} (m h : M A) :
  keeps_files m -> keeps_files h -> keeps_files (try_except m h).
Proof.
  intros Hm Hh w. specialize (Hm w). unfold try_except.
  destruct (m w) as [[a| e |] w']; cbn [snd] in *; try exact Hm.
  destruct (is_Exception e); [|exact Hm].
  etrans; [exact Hm | apply Hh].
Qed.

Lemma keeps_if {A} (b : bool) (m1 m2 : M A) :
  keeps_files m1 -> keeps_files m2 -> keeps_files (if b then m1 else m2).
Proof. now destruct b. Qed.

Lemma keeps_ret {A} (a : A) : keeps_files (ret a).
Proof. now apply keeps_same. Qed.

Lemma keeps_raise {A} e : keeps_files (@raise A e).
Proof. now apply keeps_same. Qed.

Lemma keeps_print s : keeps_files (print s).
Proof. now apply keeps_same. Qed.

Lemma keeps_time_sleep n : keeps_files (time_sleep n).
Proof. now apply keeps_same. Qed.

Lemma keeps_os_path_isfile p : keeps_files (os_path_isfile p).
Proof. now apply keeps_same. Qed.

Lemma keeps_os_path_isdir p : keeps_files (os_path_isdir p).
Proof. now apply keeps_same. Qed.

Lemma keeps_os_path_exists p : keeps_files (os_path_exists p).
Proof. now apply keeps_same. Qed.

Lemma keeps_global_output_folder : keeps_files global_output_folder.
Proof. now apply keeps_same. Qed.

Lemma keeps_assign_output_folder d : keeps_files (assign_output_folder d).
Proof. now apply keeps_same. Qed.

Lemma keeps_assign_output_csv : keeps_files assign_output_csv.
Proof. now apply keeps_same. Qed.

Lemma keeps_writeheader : keeps_files writeheader.
Proof. now apply keeps_same. Qed.

Lemma keeps_writerow row : keeps_files (writerow row).
Proof. apply keeps_same. intros w. unfold writerow. now destruct (output_csv w). Qed.

Lemma keeps_getitem tag key : keeps_files (getitem tag key).
Proof.
  unfold getitem. destruct tag as [t|]; [|apply keeps_raise].
  destruct (tag_attrs t !! key); [apply keeps_ret | apply keeps_raise].
Qed.

Lemma keeps_load_local {A} (v : option A) : keeps_files (load_local v).
Proof. destruct v; [apply keeps_ret | apply keeps_raise]. Qed.

Lemma keeps_requests_get net url : keeps_files (requests_get net url).
Proof.
  apply keeps_same. intros w. unfold requests_get. now destruct (net (clock w) url).
Qed.

Lemma stat_none files p : stat files p = None -> p = "" \/ files !! p = None.
Proof.
  unfold stat. destruct (String.eqb p "") eqn:E; [left; now apply String.eqb_eq|].
  destruct (String.eqb (rstrip_sep p) ""); [discriminate | now right].
Qed.

(** [os.mkdir] only ever adds a directory. *)
Lemma keeps_os_mkdir p : keeps_files (os_mkdir p).
Proof.
  intros w. unfold os_mkdir.
  destruct (String.eqb p "") eqn:E; [reflexivity|].
  destruct (stat (fs w) p) eqn:S; [reflexivity|].
  destruct (stat_parent (fs w) p) as [[c|]|]; try reflexivity.
  cbn [snd emit set_fs fs]. apply insert_subseteq.
  destruct (stat_none _ _ S) as [->|H]; [discriminate E | exact H].
Qed.

Lemma keeps_makedirs_heads fuel : forall name, keeps_files (makedirs_heads fuel name).
Proof.
  induction fuel as [|fuel IH]; intros name; cbn [makedirs_heads].
  - apply keeps_ret.
  - destruct (String.eqb (parent_path name) ""); [apply keeps_ret|].
    apply keeps_bind; [apply keeps_os_path_exists|].
    intros [|]; [apply keeps_ret|].
    apply keeps_bind; [apply IH | intros _; apply keeps_os_mkdir].
Qed.

(** [os.makedirs] only ever adds directories. *)
Lemma keeps_os_makedirs p : keeps_files (os_makedirs p).
Proof.
  intros w. unfold os_makedirs.
  destruct (String.eqb p "") eqn:E; [reflexivity|].
  destruct (stat (fs w) p) eqn:S; [reflexivity|].
  apply keeps_bind; [apply keeps_makedirs_heads | intros _; apply keeps_os_mkdir].
Qed.

(** Opening for writing a path that does not name a file adds a file, or
    raises. *)
Lemma keeps_create_file_at p content e w :
  is_file (fs w) p = false -> fs w ⊆ fs (snd (create_file p content e w)).
Proof.
  unfold is_file, create_file. intros H.
  destruct (String.eqb p "") eqn:E; [reflexivity|].
  destruct (stat (fs w) p) as [[c|]|] eqn:S; [discriminate H | reflexivity |].
  destruct (stat_parent (fs w) p) as [[c|]|]; try reflexivity.
  cbn [snd emit set_fs fs]. apply insert_subseteq.
  destruct (stat_none _ _ S) as [->|H']; [discriminate E | exact H'].
Qed.

Create HintDb keeps.
#[local] Hint Resolve keeps_ret keeps_raise keeps_print keeps_time_sleep
  keeps_os_path_isfile keeps_os_path_isdir keeps_os_path_exists
  keeps_global_output_folder keeps_assign_output_folder keeps_assign_output_csv
  keeps_writeheader keeps_writerow keeps_getitem keeps_load_local
  keeps_requests_get keeps_os_makedirs : keeps.

Ltac keeps_step :=
  repeat first
    [ apply keeps_bind; [|intros ?]
    | apply keeps_try
    | apply keeps_if
    | solve [auto with keeps] ].

Lemma keeps_scrape_next_link page url idx : keeps_files (scrape_next_link page url idx).
Proof. unfold scrape_next_link. keeps_step. Qed.

Lemma keeps_scrape_elements elements images_list :
  keeps_files (scrape_elements elements images_list).
Proof.
  revert images_list.
  induction elements as [|element rest IH]; intros images_list; cbn [scrape_elements].
  - apply keeps_ret.
  - keeps_step.
Qed.

Lemma keeps_fetch_page net url : keeps_files (fetch_page net url).
Proof.
  assert (Htry : keeps_files (try_get net url)) by (unfold try_get; keeps_step).
  assert (Hretry : forall n, keeps_files (retry_get net n url)).
  { induction n as [|n IH]; cbn [retry_get]; [apply keeps_ret|].
    do 2 (apply keeps_bind; [auto with keeps|intros _]).
    apply keeps_bind; [exact Htry|].
    intros [content|]; [apply keeps_ret | exact IH]. }
  unfold fetch_page. apply keeps_bind; [exact Htry|].
  intros [content|]; [apply keeps_ret | apply Hretry].
Qed.

Section Keeps.

Variable sha1_hexdigest : string -> string.
Variable BeautifulSoup : bytes -> Soup.
Variable net : nat -> string -> option bytes.

(** The image of a record is only written where no file is. *)
Lemma keeps_process_image folderp image n :
  keeps_files (process_image sha1_hexdigest net folderp image n).
Proof.
  intros w. unfold process_image.
  apply keeps_bind_at; [apply keeps_print|]. intros _ w1 _.
  apply keeps_bind_at; [apply keeps_writerow|]. intros _ w2 _.
  apply keeps_bind_at; [apply keeps_os_path_isfile|]. intros downloaded w3 E.
  unfold os_path_isfile in E. inversion E; subst. clear E.
  apply keeps_bind_at; [|intros _ w4 _; apply keeps_ret].
  destruct (is_file (fs w3) _) eqn:Hfile; cbn [negb]; [apply keeps_ret|].
  unfold download.
  apply keeps_bind_at; [apply keeps_requests_get|]. intros content w4 E.
  assert (Hfs : fs w4 = fs w3).
  { unfold requests_get in E. destruct (net (clock w3) _); inversion E; reflexivity. }
  destruct (0 <? length content); [|apply keeps_print].
  apply keeps_create_file_at. now rewrite Hfs.
Qed.

Lemma keeps_for_images folderp image_list n :
  keeps_files (for_images sha1_hexdigest net folderp image_list n).
Proof.
  revert n. induction image_list as [|image rest IH]; intros n; cbn [for_images].
  - apply keeps_ret.
  - apply keeps_bind; [apply keeps_process_image|]. intros m. apply IH.
Qed.

Lemma keeps_page_body folderp url n cur_page content :
  keeps_files (page_body sha1_hexdigest BeautifulSoup net folderp url n cur_page content).
Proof.
  unfold page_body, process_page, scrape_images.
  apply keeps_bind.
  - apply keeps_bind; [apply keeps_scrape_elements|]. intros l. apply keeps_for_images.
  - intros m. apply keeps_bind; [apply keeps_print|]. intros _.
    apply keeps_bind; [apply keeps_scrape_next_link|]. intros url'. apply keeps_ret.
Qed.

Lemma keeps_while_pages fuel folderp url n cur_page soup :
  keeps_files (while_pages sha1_hexdigest BeautifulSoup net fuel folderp url n
                           cur_page soup).
Proof.
  revert url n cur_page soup.
  induction fuel as [|fuel IH]; intros url n cur_page soup; cbn [while_pages].
  - now apply keeps_same.
  - destruct (n <? max_images); [|apply keeps_ret].
    apply keeps_bind; [apply keeps_fetch_page|].
    intros [content|].
    + apply keeps_bind; [apply keeps_page_body|]. intros [[soup' n'] url']. apply IH.
    + apply keeps_bind; [apply keeps_print|]. intros _.
      apply keeps_bind; [apply keeps_print|]. intros _.
      apply keeps_bind; [apply keeps_load_local|]. intros page.
      apply keeps_bind; [apply keeps_scrape_next_link|]. intros url'. apply IH.
Qed.

Lemma keeps_scrape_stock fuel term :
  keeps_files (scrape_stock sha1_hexdigest BeautifulSoup net fuel term).
Proof.
  unfold scrape_stock.
  apply keeps_bind; [apply keeps_global_output_folder|]. intros folderp.
  apply keeps_bind; [apply keeps_os_path_exists|]. intros present.
  apply keeps_bind; [apply keeps_if; auto with keeps|]. intros _.
  apply keeps_while_pages.
Qed.

(** The CSV file is only opened where no file is. *)
Lemma keeps_main query fuel :
  keeps_files (main sha1_hexdigest BeautifulSoup net query fuel).
Proof.
  unfold main.
  apply keeps_bind; [apply keeps_assign_output_folder|]. intros _.
  apply keeps_bind; [apply keeps_global_output_folder|]. intros folder.
  apply keeps_bind; [apply keeps_os_path_isdir|]. intros is_dir0.
  apply keeps_bind; [apply keeps_if; auto with keeps|]. intros _.
  intros w.
  apply keeps_bind_at; [apply keeps_os_path_isfile|]. intros is_file0 w1 E.
  unfold os_path_isfile in E. inversion E; subst. clear E.
  apply keeps_bind_at.
  - destruct (is_file (fs w1) _) eqn:Hfile; cbn [negb].
    + apply keeps_bind; [apply keeps_print | intros _; apply keeps_raise].
    + apply keeps_bind_at; [now apply keeps_create_file_at|]. intros _ w2 _.
      apply keeps_bind; [apply keeps_assign_output_csv | intros _; apply keeps_writeheader].
  - intros _ w2 _.
    apply keeps_bind; [apply keeps_scrape_stock | intros _; apply keeps_print].
Qed.

End Keeps.

(** X7. Whatever a run finds in the file system is still there when it
    ends, however it ends: no file and no directory is removed, replaced or
    rewritten.  The folder is made only where nothing is, the CSV file is
    opened and an image is written only where no file is. *)
Theorem run_keeps_the_files_it_finds
  sha1_hexdigest BeautifulSoup net query fuel w path found :
  fs w !! path = Some found ->
  fs (snd (main sha1_hexdigest BeautifulSoup net query fuel w)) !! path = Some found.
Proof.
  intros H. eapply lookup_weaken; [exact H | apply keeps_main].
Qed.

Lemma run_keeps_the_files_it_finds_witness :
  fs (snd (main Scenario.digest Scenario.parser Scenario.web "puppy" 5
                (initial_world {[ "puppy" := Dir; "puppy/d12.jpg" := File [Byte.x07] ]})))
    !! "puppy/d12.jpg"
  = Some (File [Byte.x07]).
Proof.
  apply (run_keeps_the_files_it_finds Scenario.digest Scenario.parser Scenario.web
           "puppy" 5
           (initial_world {[ "puppy" := Dir; "puppy/d12.jpg" := File [Byte.x07] ]})).
  vm_compute. reflexivity.
Defined.

(** ** The CSV file that is already there *)

Lemma no_request_bind {A B} (m : M A) (k : A -> M B) :
  no_request m -> (forall a, no_request (k a)) -> no_request (bind m k).
Proof.
  intros Hm Hk w. specialize (Hm w). unfold bind.
  destruct (m w) as [[a| e |] w']; cbn [snd] in *; try exact Hm.
  now rewrite Hk.
Qed.

Lemma no_request_os_mkdir p : no_request (os_mkdir p).
Proof. intros w. now destruct (os_mkdir_cases p w) as [->|(x & _ & ->)]. Qed.

Lemma no_request_makedirs_heads fuel : forall name, no_request (makedirs_heads fuel name).
Proof.
  induction fuel as [|fuel IH]; intros name; cbn [makedirs_heads]; [now intros w|].
  destruct (String.eqb (parent_path name) ""); [now intros w|].
  apply no_request_bind; [now intros w|].
  intros [|]; [now intros w|].
  apply no_request_bind; [apply IH | intros _; apply no_request_os_mkdir].
Qed.

Lemma no_request_os_makedirs p : no_request (os_makedirs p).
Proof.
  intros w. unfold os_makedirs.
  destruct (String.eqb p ""); [reflexivity|].
  destruct (stat (fs w) p); [reflexivity|].
  apply no_request_bind; [apply no_request_makedirs_heads|].
  intros _. apply no_request_os_mkdir.
Qed.

Lemma ends_os_mkdir p : ends (os_mkdir p).
Proof.
  intros w. destruct (os_mkdir_cases p w) as [->|(x & Hx & ->)]; [exact I | exact Hx].
Qed.

Lemma ends_makedirs_heads fuel : forall name, ends (makedirs_heads fuel name).
Proof.
  induction fuel as [|fuel IH]; intros name; cbn [makedirs_heads]; [apply ends_ret|].
  destruct (String.eqb (parent_path name) ""); [apply ends_ret|].
  apply ends_bind; [now intros w|].
  intros [|]; [apply ends_ret|].
  apply ends_bind; [apply IH | intros _; apply ends_os_mkdir].
Qed.

Lemma ends_os_makedirs p : ends (os_makedirs p).
Proof.
  intros w. unfold os_makedirs.
  destruct (String.eqb p ""); [reflexivity|].
  destruct (stat (fs w) p); [reflexivity|].
  apply ends_bind; [apply ends_makedirs_heads | intros _; apply ends_os_mkdir].
Qed.

(** A file that is there is a file in every larger file system. *)
Lemma is_file_weaken files files' p :
  files ⊆ files' -> is_file files p = true ->
  is_file files' p = true /\ files' !! p = files !! p.
Proof.
  unfold is_file, stat. intros Hsub H.
  destruct (String.eqb p ""); [discriminate H|].
  destruct (String.eqb (rstrip_sep p) ""); [discriminate H|].
  destruct (files !! p) as [[c|]|] eqn:E; try discriminate H.
  now rewrite (lookup_weaken _ _ _ _ E Hsub).
Qed.

Section Existing_csv.

Variable sha1_hexdigest : string -> string.
Variable BeautifulSoup : bytes -> Soup.
Variable net : nat -> string -> option bytes.

(** C4, amended.  The CSV file is there when the program starts.  The
    program then requests nothing, leaves the writer alone and keeps every
    file as it is, the CSV file among them.  When the output folder is a
    directory, or is not and [os.makedirs] makes it, the program prints its
    message and exits with status 0; with the folder a directory it has
    changed nothing at all.  When [os.makedirs] raises, for the empty query
    or a query that names a file or lies under one, that exception ends the
    program, with status 1. *)
Theorem existing_csv_stops_the_program query fuel w :
  is_file (fs w) (os_path_join query (query +:+ "_image_list.csv")) = true ->
  let csv := os_path_join query (query +:+ "_image_list.csv") in
  let message :=
    EvPrint ("Output CSV file already exists. Rename it or delete it first." +:+ nl) in
  let made := os_makedirs query (set_output_folder query w) in
  let out := main sha1_hexdigest BeautifulSoup net query fuel w in
  (clock (snd out) = clock w /\
   output_csv (snd out) = output_csv w /\
   fs w ⊆ fs (snd out) /\
   fs (snd out) !! csv = fs w !! csv) /\
  (is_dir (fs w) query = true \/ fst made = Ok tt ->
   fst out = Raise SystemExit /\
   exit_status (fst out) = Some 0 /\
   exists l, log (snd out) = l ++ [message]) /\
  (is_dir (fs w) query = true ->
   fs (snd out) = fs w /\ log (snd out) = log w ++ [message]) /\
  (forall e, is_dir (fs w) query = false -> fst made = Raise e ->
   fst out = Raise e /\ exit_status (fst out) = Some 1).
Proof.
  intros Hfile csv message made out.
  change (is_file (fs w) csv = true) in Hfile.
  set (w0 := set_output_folder query w).
  (* the run up to the test of the CSV file *)
  assert (Estart : out =
    bind (if negb (is_dir (fs w) query) then os_makedirs query else ret tt)
         (fun _ =>
            is_file <- os_path_isfile csv ;;
            (if negb is_file then
               open_w csv ;;; assign_output_csv ;;; writeheader
             else
               print ("Output CSV file already exists. Rename it or delete it first."
                      +:+ nl) ;;;
               raise SystemExit) ;;;
            scrape_stock sha1_hexdigest BeautifulSoup net fuel query ;;;
            print (nl +:+ "Finished." +:+ nl)) w0).
  { reflexivity. }
  (* and from there on, in a world where the CSV file is a file *)
  assert (Eexit : forall w1, is_file (fs w1) csv = true ->
    (is_file <- os_path_isfile csv ;;
     (if negb is_file then
        open_w csv ;;; assign_output_csv ;;; writeheader
      else
        print ("Output CSV file already exists. Rename it or delete it first."
               +:+ nl) ;;;
        raise SystemExit) ;;;
     scrape_stock sha1_hexdigest BeautifulSoup net fuel query ;;;
     print (nl +:+ "Finished." +:+ nl)) w1
    = (Raise SystemExit, emit message w1)).
  { intros w1 H1. unfold bind at 1. unfold os_path_isfile at 1. rewrite H1.
    reflexivity. }
  destruct (is_dir (fs w) query) eqn:Hdir; cbn [negb] in Estart.
  - (* the folder is a directory *)
    assert (E : out = (Raise SystemExit, emit message w0)).
    { rewrite Estart. unfold bind at 1. unfold ret at 1. now apply Eexit. }
    rewrite E. cbn [fst snd exit_status]. split; [|split; [|split]].
    + repeat split; reflexivity.
    + intros _. split; [reflexivity|]. split; [reflexivity|]. now exists (log w).
    + intros _. split; reflexivity.
    + intros e H. discriminate H.
  - (* the folder is made, or cannot be *)
    subst made. fold w0.
    pose proof (no_request_os_makedirs query w0) as Hclock.
    pose proof (keeps_os_makedirs query w0) as Hkeeps.
    pose proof (ends_os_makedirs query w0) as Hends.
    destruct (silent_os_makedirs query w0) as [Hrows _].
    assert (E : out = match os_makedirs query w0 with
                      | (Ok _, w1) => (Raise SystemExit, emit message w1)
                      | (Raise e, w1) => (Raise e, w1)
                      | (OutOfFuel, w1) => (OutOfFuel, w1)
                      end).
    { rewrite Estart. unfold bind at 1.
      destruct (os_makedirs query w0) as [[[]| e |] w1]; try reflexivity.
      apply Eexit. exact (proj1 (is_file_weaken _ _ _ Hkeeps Hfile)). }
    rewrite E. clear E Estart.
    destruct (os_makedirs query w0) as [[[]| e |] w1]; cbn [fst snd] in *;
      try contradiction;
      destruct (is_file_weaken _ _ _ Hkeeps Hfile) as [_ Hsame];
      (split; [|split; [|split]]).
    + cbn [clock output_csv fs emit]. repeat split; assumption.
    + intros _. split; [reflexivity|]. split; [reflexivity|]. now exists (log w1).
    + intros H. discriminate H.
    + intros e _ He. discriminate He.
    + repeat split; assumption.
    + intros [H|H]; discriminate H.
    + intros H. discriminate H.
    + intros e' _ He. inversion He; subst. split; [reflexivity|]. now destruct e'.
Qed.

End Existing_csv.

Lemma existing_csv_stops_the_program_witness :
  let query := "puppy" in
  let w := initial_world Scenario.files_with_csv in
  let csv := os_path_join query (query +:+ "_image_list.csv") in
  let message :=
    EvPrint ("Output CSV file already exists. Rename it or delete it first." +:+ nl) in
  let made := os_makedirs query (set_output_folder query w) in
  let out := main Scenario.digest Scenario.parser Scenario.web query 5 w in
  (clock (snd out) = clock w /\
   output_csv (snd out) = output_csv w /\
   fs w ⊆ fs (snd out) /\
   fs (snd out) !! csv = fs w !! csv) /\
  (is_dir (fs w) query = true \/ fst made = Ok tt ->
   fst out = Raise SystemExit /\
   exit_status (fst out) = Some 0 /\
   exists l, log (snd out) = l ++ [message]) /\
  (is_dir (fs w) query = true ->
   fs (snd out) = fs w /\ log (snd out) = log w ++ [message]) /\
  (forall e, is_dir (fs w) query = false -> fst made = Raise e ->
   fst out = Raise e /\ exit_status (fst out) = Some 1).
Proof.
  apply (existing_csv_stops_the_program Scenario.digest Scenario.parser Scenario.web
           "puppy" 5 (initial_world Scenario.files_with_csv)).
  vm_compute. reflexivity.
Defined.

(** The CSV file of the empty query is there: the program does not exit
    cleanly, [os.makedirs("")] ends it with [FileNotFoundError]. *)
Lemma existing_csv_is_no_clean_exit_for_the_empty_query :
  let files : gmap string node := {[ "_image_list.csv" := File [Byte.x41] ]} in
  let out := main Scenario.digest Scenario.parser Scenario.web "" 5
                  (initial_world files) in
  is_file files (os_path_join "" ("" +:+ "_image_list.csv")) = true /\
  fst out = Raise FileNotFoundError /\
  exit_status (fst out) = Some 1.
Proof. vm_compute. repeat split. Qed.

(** ** The first run *)

Lemma length_append a b : String.length (a +:+ b) = String.length a + String.length b.
Proof. induction a as [|c a IH]; simpl; [reflexivity | now rewrite IH]. Qed.

Lemma os_path_join_length a b :
  String.length b <= String.length (os_path_join a b).
Proof.
  unfold os_path_join. destruct (starts_with_sep b); [lia|].
  destruct (String.eqb a "" || ends_with_sep a)%bool; rewrite !length_append; lia.
Qed.

Lemma eqb_empty s : s <> "" -> String.eqb s "" = false.
Proof. intros H. now apply String.eqb_neq. Qed.

(** *** Names without a separator *)







(** *** An entry [t] of the directory [x] *)






(** *** The folder and the CSV file of a query without a separator *)




Lemma stat_insert_new files p n :
  stat files p = None -> String.eqb p "" = false -> stat (<[p := n]> files) p = Some n.
Proof.
  unfold stat. intros H E. rewrite E in *.
  destruct (String.eqb (rstrip_sep p) ""); [discriminate H|].
  apply lookup_insert_eq.
Qed.

Lemma create_file_new p content e w :
  String.eqb p "" = false -> stat (fs w) p = None -> stat_parent (fs w) p = Some Dir ->
  create_file p content e w
  = (Ok tt, emit e (set_fs (<[p := File content]> (fs w)) w)).
Proof. intros H1 H2 H3. unfold create_file. now rewrite H1, H2, H3. Qed.

(** *** The depth of [os.makedirs] *)

Lemma rstrip_sep_length s : String.length (rstrip_sep s) <= String.length s.
Proof.
  induction s as [|c s IH]; [reflexivity|]. cbn [rstrip_sep].
  destruct (rstrip_sep s) as [|c' r].
  - destruct (Ascii.eqb c "/"); simpl String.length; lia.
  - simpl String.length in *. lia.
Qed.

Lemma rstrip_sep_ends s : ends_with_sep (rstrip_sep s) = false.
Proof.
  induction s as [|c s IH]; [reflexivity|]. cbn [rstrip_sep].
  destruct (rstrip_sep s) as [|c' r].
  - destruct (Ascii.eqb c "/") eqn:E; [reflexivity | exact E].
  - exact IH.
Qed.

Lemma upto_last_sep_length s :
  String.length (upto_last_sep s) <= String.length s /\
  (ends_with_sep s = false -> s <> "" ->
   String.length (upto_last_sep s) < String.length s).
Proof.
  induction s as [|c s [IH1 IH2]]; [split; [reflexivity | congruence]|].
  cbn [upto_last_sep ends_with_sep].
  destruct (upto_last_sep s) as [|c' h] eqn:Eh.
  - destruct (Ascii.eqb c "/") eqn:Ec; simpl String.length; (split; [lia|]).
    + intros He _. destruct s as [|c'' s]; [congruence|]. simpl String.length. lia.
    + intros _ _. lia.
  - simpl String.length in *. split; [lia|].
    intros He _. destruct s as [|c'' s]; [discriminate Eh|].
    simpl String.length in *.
    assert (S (String.length h) < S (String.length s)); [|lia].
    apply IH2; [exact He | discriminate].
Qed.

(** The directory of a path is shorter than the path. *)
Lemma parent_path_shorter p :
  p <> "" -> String.length (parent_path p) < String.length p.
Proof.
  intros Hp. unfold parent_path, os_path_dirname.
  pose proof (rstrip_sep_length p) as Hq.
  pose proof (rstrip_sep_ends p) as Hends.
  destruct (upto_last_sep_length (rstrip_sep p)) as [H1 H2].
  pose proof (rstrip_sep_length (upto_last_sep (rstrip_sep p))) as Hr.
  assert (Hlt : String.length (upto_last_sep (rstrip_sep p)) < String.length p).
  { destruct (rstrip_sep p) as [|c q] eqn:E.
    - destruct p; [congruence | simpl String.length; lia].
    - assert (String.length (upto_last_sep (String c q)) < String.length (String c q))
        by (apply H2; [exact Hends | discriminate]).
      lia. }
  destruct (String.eqb (rstrip_sep (upto_last_sep (rstrip_sep p))) ""); lia.
Qed.

(** The length of the path is fuel enough: more fuel makes no
    difference. *)
Lemma makedirs_heads_enough_fuel fuel1 :
  forall fuel2 name w,
  String.length name <= fuel1 -> String.length name <= fuel2 ->
  makedirs_heads fuel1 name w = makedirs_heads fuel2 name w.
Proof.
  induction fuel1 as [|fuel1 IH]; intros fuel2 name w H1 H2.
  - destruct name; [|simpl String.length in H1; lia]. now destruct fuel2.
  - destruct fuel2 as [|fuel2].
    + destruct name; [reflexivity | simpl String.length in H2; lia].
    + cbn [makedirs_heads].
      destruct (String.eqb (parent_path name) "") eqn:E; [reflexivity|].
      assert (Hname : name <> "") by (intros ->; discriminate E).
      pose proof (parent_path_shorter name Hname) as Hlt.
      unfold bind at 1 3. unfold os_path_exists.
      destruct (path_exists (fs w) (parent_path name)); [reflexivity|].
      unfold bind. rewrite (IH fuel2 (parent_path name) w) by lia. reflexivity.
Qed.

(** [os.makedirs] makes the directories above its path, and a file is
    only opened in a directory that is there. *)
Example makedirs_makes_the_directories_above :
  fs (snd (os_makedirs "a/b/c" (initial_world ∅)))
  = {[ "a" := Dir; "a/b" := Dir; "a/b/c" := Dir ]} /\
  fst (os_makedirs "a/b/c" (initial_world {[ "a" := File [] ]}))
  = Raise NotADirectoryError /\
  fst (os_makedirs "/x" (initial_world ∅)) = Ok tt /\
  fst (os_makedirs "/" (initial_world ∅)) = Raise FileExistsError.
Proof. vm_compute. repeat split. Qed.

Example open_needs_the_directory :
  fst (open_w "puppy/list.csv" (initial_world ∅)) = Raise FileNotFoundError /\
  fst (open_w "puppy/list.csv" (initial_world {[ "puppy" := File [] ]}))
  = Raise NotADirectoryError /\
  fst (open_w "puppy/list.csv" (initial_world {[ "puppy" := Dir ]})) = Ok tt /\
  fst (open_w "list.csv" (initial_world ∅)) = Ok tt.
Proof. vm_compute. repeat split. Qed.

(** A query with a separator in it: the CSV file would lie in a folder of
    the folder that nothing makes, and the run ends there, before any
    request. *)
Example query_with_a_separator :
  let out := main Scenario.digest Scenario.parser Scenario.web "a/b" 5
                  (initial_world ∅) in
  os_path_join "a/b" ("a/b" +:+ "_image_list.csv") = "a/b/a/b_image_list.csv" /\
  fst out = Raise FileNotFoundError /\
  clock (snd out) = 0 /\
  fs (snd out) = {[ "a" := Dir; "a/b" := Dir ]}.
Proof. vm_compute. repeat split. Qed.



(** ** Fetching a page, further *)

Lemma slept_app l l' : slept (l ++ l') = slept l + slept l'.
Proof.
  induction l as [|e l IH]; [reflexivity|].
  destruct e; cbn [app slept]; rewrite IH; lia.
Qed.

Section Fetch_more.

Variable net : nat -> string -> option bytes.
Variable url : string.

Lemma retry_get_succeeds n : forall k w content,
  k < n ->
  (forall j, j < k -> net (clock w + j) url = None) ->
  net (clock w + k) url = Some content ->
  exists w', retry_get net n url w = (Ok (Some content), w') /\
             clock w' = clock w + k + 1 /\
             slept (log w') = slept (log w) + 5 * (k + 1) /\
             fs w' = fs w /\ output_csv w' = output_csv w.
Proof.
  induction n as [|n IH]; intros k w content Hk Hfail Hok; [lia|].
  cbn [retry_get].
  unfold bind at 1. unfold print at 1. cbv beta iota.
  unfold bind at 1. unfold time_sleep at 1. cbv beta iota.
  set (w2 := emit (EvSleep 5) (emit _ w)).
  assert (Hs : slept (log w2) = slept (log w) + 5).
  { unfold w2. cbn [log emit]. rewrite !slept_app. cbn [slept]. lia. }
  unfold bind at 1. destruct k as [|k].
  - rewrite (try_get_some _ _ _ content)
      by (replace (clock w2) with (clock w + 0) by (cbn; lia); exact Hok).
    eexists. split; [reflexivity|]. cbn [clock fs output_csv log emit tick].
    rewrite slept_app. fold (log w2). rewrite Hs. cbn [slept].
    clear Hs. subst w2. cbn [clock fs output_csv emit]. repeat split; lia.
  - rewrite try_get_none
      by (replace (clock w2) with (clock w + 0) by (cbn; lia); apply Hfail; lia).
    destruct (IH k (emit (EvGet url) (tick w2)) content) as (w' & E & Hc & Hsl & Hf & Ho).
    + lia.
    + intros j Hj. cbn [clock emit tick w2].
      replace (S (clock w) + j) with (clock w + S j) by lia. apply Hfail. lia.
    + cbn [clock emit tick w2].
      replace (S (clock w) + k) with (clock w + S k) by lia. exact Hok.
    + exists w'. split; [exact E|]. rewrite Hc, Hsl, Hf, Ho.
      cbn [clock fs output_csv log emit tick]. rewrite slept_app. fold (log w2).
      rewrite Hs. cbn [slept].
      clear Hs E Hc Hsl Hf Ho. subst w2. cbn [clock fs output_csv emit].
      repeat split; lia.
Qed.

Lemma retry_get_total n : forall w,
  exists r w', retry_get net n url w = (Ok r, w') /\
               (r = None -> forall k, k < n -> net (clock w + k) url = None) /\
               clock w <= clock w' <= clock w + n.
Proof.
  induction n as [|n IH]; intros w.
  - exists None, w. split; [reflexivity|]. split; [intros _ k Hk; lia | lia].
  - cbn [retry_get].
    unfold bind at 1. unfold print at 1. cbv beta iota.
    unfold bind at 1. unfold time_sleep at 1. cbv beta iota.
    set (w2 := emit (EvSleep 5) (emit _ w)).
    unfold bind at 1.
    destruct (net (clock w2) url) as [content|] eqn:E.
    + rewrite (try_get_some _ _ _ content E).
      eexists _, _. split; [reflexivity|]. split; [discriminate|].
      cbn [clock emit tick w2]. lia.
    + rewrite (try_get_none _ _ _ E).
      destruct (IH (emit (EvGet url) (tick w2))) as (r & w' & Er & Hnone & Hclock).
      exists r, w'. split; [exact Er|]. cbn [clock emit tick w2] in Hnone, Hclock.
      split; [|lia].
      intros Hr [|k] Hk.
      * replace (clock w + 0) with (clock w) by lia. exact E.
      * replace (clock w + S k) with (S (clock w) + k) by lia. apply Hnone; [exact Hr|lia].
Qed.

End Fetch_more.

(** X9. The page request is tried up to six times, with a sleep of five
    seconds before each retry, and the content of the first attempt that
    succeeds is what the turn goes on with: when the first [k] attempts fail
    and the next one succeeds, [k] at most 5, the fetch returns that content
    after [k + 1] requests and [5 * k] seconds of sleep, and has touched
    neither the files nor the rows. *)
Theorem fetch_page_returns_the_first_success net url w k content :
  k < 6 ->
  (forall j, j < k -> net (clock w + j) url = None) ->
  net (clock w + k) url = Some content ->
  let out := fetch_page net url w in
  fst out = Ok (Some content) /\
  clock (snd out) = clock w + k + 1 /\
  slept (log (snd out)) = slept (log w) + 5 * k /\
  fs (snd out) = fs w /\
  output_csv (snd out) = output_csv w.
Proof.
  intros Hk Hfail Hok out.
  assert (H : exists w',
            fetch_page net url w = (Ok (Some content), w') /\
            clock w' = clock w + k + 1 /\
            slept (log w') = slept (log w) + 5 * k /\
            fs w' = fs w /\ output_csv w' = output_csv w).
  { unfold fetch_page. unfold bind at 1. destruct k as [|k].
    - replace (clock w + 0) with (clock w) in Hok by lia.
      rewrite (try_get_some _ _ _ content Hok).
      eexists. split; [reflexivity|]. cbn [clock log fs output_csv emit tick].
      rewrite slept_app. cbn [slept]. repeat split; lia.
    - rewrite try_get_none
        by (replace (clock w) with (clock w + 0) by lia; apply Hfail; lia).
      destruct (retry_get_succeeds net url 5 k (emit (EvGet url) (tick w)) content)
        as (w' & E & Hc & Hsl & Hf & Ho).
      + lia.
      + intros j Hj. cbn [clock emit tick].
        replace (S (clock w) + j) with (clock w + S j) by lia. apply Hfail. lia.
      + cbn [clock emit tick].
        replace (S (clock w) + k) with (clock w + S k) by lia. exact Hok.
      + exists w'. split; [exact E|]. rewrite Hc, Hsl, Hf, Ho.
        cbn [clock fs output_csv log emit tick]. rewrite slept_app. cbn [slept].
        repeat split; lia. }
  destruct H as (w' & E & H). subst out. rewrite E. split; [reflexivity | exact H].
Qed.

Lemma fetch_page_returns_the_first_success_witness :
  let net := fun (n : nat) (_ : string) => if n <? 4 then None else Some [Byte.x01] in
  let out := fetch_page net "http://page" Scenario.midrun in
  fst out = Ok (Some [Byte.x01]) /\
  clock (snd out) = clock Scenario.midrun + 3 + 1 /\
  slept (log (snd out)) = slept (log Scenario.midrun) + 5 * 3 /\
  fs (snd out) = fs Scenario.midrun /\
  output_csv (snd out) = output_csv Scenario.midrun.
Proof.
  apply (fetch_page_returns_the_first_success
           (fun (n : nat) (_ : string) => if n <? 4 then None else Some [Byte.x01])
           "http://page" Scenario.midrun 3 [Byte.x01]).
  - lia.
  - intros j Hj. cbn [clock Scenario.midrun].
    destruct j as [|[|[|j]]]; [reflexivity..|lia].
  - reflexivity.
Defined.

(** X10. The page request never raises: whatever the network does, the
    fetch returns, after one to six requests.  It returns without a content
    exactly when the request and its five retries have all failed. *)
Theorem fetch_page_never_raises net url w :
  let out := fetch_page net url w in
  (exists r, fst out = Ok r) /\
  (fst out = Ok None <-> forall k, k < 6 -> net (clock w + k) url = None) /\
  clock w < clock (snd out) <= clock w + 6.
Proof.
  intros out.
  assert (H : exists r w', out = (Ok r, w') /\
            (r = None -> forall k, k < 6 -> net (clock w + k) url = None) /\
            clock w < clock w' <= clock w + 6).
  { subst out. unfold fetch_page. unfold bind at 1.
    destruct (net (clock w) url) as [content|] eqn:E.
    - rewrite (try_get_some _ _ _ content E).
      eexists _, _. split; [reflexivity|]. split; [discriminate|].
      cbn [clock emit tick]. lia.
    - rewrite (try_get_none _ _ _ E).
      destruct (retry_get_total net url 5 (emit (EvGet url) (tick w)))
        as (r & w' & Er & Hnone & Hclock).
      exists r, w'. split; [exact Er|]. cbn [clock emit tick] in Hnone, Hclock.
      split; [|lia].
      intros Hr [|k] Hk.
      + replace (clock w + 0) with (clock w) by lia. exact E.
      + replace (clock w + S k) with (S (clock w) + k) by lia.
        apply Hnone; [exact Hr|lia]. }
  destruct H as (r & w' & E & Hnone & Hclock).
  split; [exists r; now rewrite E|]. split; [|now rewrite E].
  split.
  - rewrite E. cbn [fst]. intros Hr. apply Hnone. now inversion Hr.
  - intros Hall. subst out. now rewrite (fetch_page_fails _ _ _ Hall).
Qed.

(** ** Runs that do not end *)

Lemma page_body_no_record sha1_hexdigest BeautifulSoup net folderp url n cur_page
  content tag href w :
  find_all_div_lIMUZd (BeautifulSoup content) = [] ->
  find_a_frGj1b (BeautifulSoup content) = Some tag ->
  tag_attrs tag !! "href" = Some href ->
  page_body sha1_hexdigest BeautifulSoup net folderp url n cur_page content w =
  (Ok (BeautifulSoup content, n, "https://www.google.com" +:+ href),
   emit (EvPrint (nl +:+ ("https://www.google.com" +:+ href) +:+ nl))
        (emit (EvPrint "** Next page ** ") w)).
Proof.
  intros Hall Htag Hhref. unfold page_body, process_page, scrape_images.
  rewrite Hall. cbn [scrape_elements].
  unfold bind at 1. unfold bind at 1. unfold ret at 1. cbn [for_images].
  unfold ret at 1. unfold bind at 1. unfold print at 1. cbv beta iota.
  unfold bind at 1. now rewrite (scrape_next_link_some _ _ _ _ tag href).
Qed.

(** X11. The network is lost after a page was read: the turn that cannot
    fetch its page looks the next link up in the page read before, which is
    the address that has just failed, and asks for it again, and so on: the
    loop does not end.  Every turn makes six requests; no row is written and
    no file is touched. *)
Theorem network_lost_after_a_page_never_ends
  sha1_hexdigest BeautifulSoup net fuel folderp url num_images cur_page
  page tag href w :
  num_images < max_images ->
  find_a_frGj1b page = Some tag ->
  tag_attrs tag !! "href" = Some href ->
  (forall k u, clock w <= k -> net k u = None) ->
  let out := while_pages sha1_hexdigest BeautifulSoup net fuel folderp url
                         num_images cur_page (Some page) w in
  fst out = OutOfFuel /\
  clock (snd out) = clock w + 6 * fuel /\
  fs (snd out) = fs w /\
  output_csv (snd out) = output_csv w.
Proof.
  intros Hlt Htag Hhref. revert url cur_page w.
  induction fuel as [|fuel IH]; intros url cur_page w Hnet out; subst out.
  - cbn. repeat split. lia.
  - rewrite (later_page_failure_asks_again _ _ _ _ _ _ _ _ page tag href)
      by (try assumption; intros k _; apply Hnet; lia).
    destruct (gave_up_frame url w) as (Hc & Hf & Ho).
    set (w' := emit _ (gave_up url w)).
    destruct (IH ("https://www.google.com" +:+ href) (cur_page + 1) w')
      as (H1 & H2 & H3 & H4).
    { intros k u Hk. apply Hnet. unfold w' in Hk. cbn [clock emit] in Hk. lia. }
    rewrite H1, H2, H3, H4. unfold w'. cbn [clock fs output_csv emit].
    rewrite Hc, Hf, Ho. repeat split. lia.
Qed.

Lemma network_lost_after_a_page_never_ends_witness :
  let out := while_pages Scenario.digest Scenario.parser Scenario.web_down 3 "puppy"
                         "https://www.google.com/search?start=20" 2 2
                         (Some Scenario.page1) Scenario.midrun in
  fst out = OutOfFuel /\
  clock (snd out) = clock Scenario.midrun + 6 * 3 /\
  fs (snd out) = fs Scenario.midrun /\
  output_csv (snd out) = output_csv Scenario.midrun.
Proof.
  apply (network_lost_after_a_page_never_ends Scenario.digest Scenario.parser
           Scenario.web_down 3 "puppy" "https://www.google.com/search?start=20" 2 2
           Scenario.page1 (mkTag {[ "href" := "/search?start=20" ]})
           "/search?start=20" Scenario.midrun).
  - unfold max_images. lia.
  - reflexivity.
  - reflexivity.
  - intros k u _. reflexivity.
Defined.

(** X12. Pages that have a next link and no result container: every turn
    fetches the page, finds no record, follows the link, and the count never
    moves, so the loop does not end; it has no bound on the number of pages.
    Every turn makes one request; no row is written and no file is
    touched. *)
Theorem pages_without_records_never_end
  sha1_hexdigest BeautifulSoup net fuel folderp url num_images cur_page soup w :
  num_images < max_images ->
  (forall k u, exists content tag href,
     net k u = Some content /\
     find_all_div_lIMUZd (BeautifulSoup content) = [] /\
     find_a_frGj1b (BeautifulSoup content) = Some tag /\
     tag_attrs tag !! "href" = Some href) ->
  let out := while_pages sha1_hexdigest BeautifulSoup net fuel folderp url
                         num_images cur_page soup w in
  fst out = OutOfFuel /\
  clock (snd out) = clock w + fuel /\
  fs (snd out) = fs w /\
  output_csv (snd out) = output_csv w.
Proof.
  intros Hlt Hnet. revert url cur_page soup w.
  induction fuel as [|fuel IH]; intros url cur_page soup w out; subst out.
  - cbn. repeat split. lia.
  - destruct (Hnet (clock w) url) as (content & tag & href & Hget & Hall & Htag & Hhref).
    assert (E : while_pages sha1_hexdigest BeautifulSoup net (S fuel) folderp url
                            num_images cur_page soup w
                = while_pages sha1_hexdigest BeautifulSoup net fuel folderp
                    ("https://www.google.com" +:+ href) num_images (cur_page + 1)
                    (Some (BeautifulSoup content))
                    (emit (EvPrint (nl +:+ ("https://www.google.com" +:+ href) +:+ nl))
                       (emit (EvPrint "** Next page ** ")
                          (emit (EvGet url) (tick w))))).
    { cbn [while_pages]. apply Nat.ltb_lt in Hlt. rewrite Hlt.
      unfold bind at 1. rewrite (fetch_page_first_try _ _ _ content Hget).
      unfold bind at 1.
      now rewrite (page_body_no_record _ _ _ _ _ _ _ _ tag href _ Hall Htag Hhref). }
    rewrite E.
    destruct (IH ("https://www.google.com" +:+ href) (cur_page + 1)
                 (Some (BeautifulSoup content))
                 (emit (EvPrint (nl +:+ ("https://www.google.com" +:+ href) +:+ nl))
                    (emit (EvPrint "** Next page ** ")
                       (emit (EvGet url) (tick w)))))
      as (H1 & H2 & H3 & H4).
    rewrite H1, H2, H3, H4. cbn [clock fs output_csv emit tick]. repeat split. lia.
Qed.

Lemma pages_without_records_never_end_witness :
  let out := while_pages Scenario.digest Endless.parser Endless.web 7 "puppy"
                         (query_url "puppy") 0 1 None Scenario.midrun in
  fst out = OutOfFuel /\
  clock (snd out) = clock Scenario.midrun + 7 /\
  fs (snd out) = fs Scenario.midrun /\
  output_csv (snd out) = output_csv Scenario.midrun.
Proof.
  apply (pages_without_records_never_end Scenario.digest Endless.parser Endless.web 7
           "puppy" (query_url "puppy") 0 1 None Scenario.midrun).
  - unfold max_images. lia.
  - intros k u. exists [Byte.x01], (mkTag {[ "href" := "/search?q=puppy&start=0" ]}),
      "/search?q=puppy&start=0". repeat split.
Defined.

(** ** The folder that cannot be made *)

(** X13. When the folder of the query cannot be made, because the query
    is the empty string or the name of an existing file, the run stops at
    once on the exception of [os.makedirs]: [FileNotFoundError] for the empty
    string, [FileExistsError] for the file.  Nothing has been requested,
    written or printed. *)
Theorem folder_that_cannot_be_made_stops_the_run
  sha1_hexdigest BeautifulSoup net query fuel w :
  query = "" \/ is_file (fs w) query = true ->
  main sha1_hexdigest BeautifulSoup net query fuel w =
  (Raise (if String.eqb query "" then FileNotFoundError else FileExistsError),
   set_output_folder query w).
Proof.
  intros H.
  assert (Hdir : is_dir (fs w) query = false).
  { destruct H as [->|H]; [reflexivity | now apply is_file_not_dir]. }
  unfold main.
  unfold bind at 1. unfold assign_output_folder at 1. cbv beta iota.
  unfold bind at 1. unfold global_output_folder at 1.
  cbn [output_folder set_output_folder].
  unfold bind at 1. unfold os_path_isdir at 1. cbn [fs set_output_folder].
  rewrite Hdir. cbn [negb].
  unfold bind at 1. unfold os_makedirs. cbn [fs set_output_folder].
  destruct (String.eqb query "") eqn:E; [reflexivity|].
  destruct H as [->|H]; [discriminate E|].
  unfold is_file in H.
  destruct (stat (fs w) query) as [[c|]|]; try discriminate H. reflexivity.
Qed.

Lemma folder_that_cannot_be_made_stops_the_run_witness :
  main Scenario.digest Scenario.parser Scenario.web "puppy" 5
       (initial_world {[ "puppy" := File [Byte.x41] ]}) =
  (Raise (if String.eqb "puppy" "" then FileNotFoundError else FileExistsError),
   set_output_folder "puppy" (initial_world {[ "puppy" := File [Byte.x41] ]})).
Proof.
  apply (folder_that_cannot_be_made_stops_the_run Scenario.digest Scenario.parser
           Scenario.web "puppy" 5 (initial_world {[ "puppy" := File [Byte.x41] ]})).
  right. vm_compute. reflexivity.
Defined.

(** ** An image that is new *)

Lemma image_fp_not_empty sha1_hexdigest folderp address :
  String.eqb (image_fp sha1_hexdigest folderp address) "" = false.
Proof.
  apply eqb_empty. intros E.
  pose proof (os_path_join_length folderp (image_fn sha1_hexdigest address)) as H.
  fold (image_fp sha1_hexdigest folderp address) in H. rewrite E in H.
  unfold image_fn in H. rewrite length_append in H. cbn in H. lia.
Qed.

(** X14. A record whose local path names nothing yet, in a directory
    that is there, and whose image comes back with content: the content is
    written at the local path of the row, after one request, and nothing
    else changes in the file system. *)
Theorem new_image_is_stored
  sha1_hexdigest net folderp image num_images w rows content :
  output_csv w = Some rows ->
  path_exists (fs w) (image_fp sha1_hexdigest folderp (img_image_url image)) = false ->
  stat_parent (fs w) (image_fp sha1_hexdigest folderp (img_image_url image))
  = Some Dir ->
  net (clock w) (img_image_url image) = Some content ->
  content <> [] ->
  let row := row_of sha1_hexdigest folderp (num_images + 1) image in
  let out := process_image sha1_hexdigest net folderp image num_images w in
  fst out = Ok (num_images + 1) /\
  output_csv (snd out) = Some (rows ++ [row]) /\
  fs (snd out) = <[download_file row := File content]> (fs w) /\
  is_file (fs (snd out)) (download_file row) = true /\
  clock (snd out) = S (clock w).
Proof.
  intros Hcsv Hnew Hparent Hnet Hcontent row out.
  set (path := image_fp sha1_hexdigest folderp (img_image_url image)) in *.
  assert (Hstat : stat (fs w) path = None).
  { unfold path_exists in Hnew. now destruct (stat (fs w) path). }
  assert (Hpath : String.eqb path "" = false) by apply image_fp_not_empty.
  assert (E : out = (Ok (num_images + 1),
                     emit (EvWriteFile path content)
                       (set_fs (<[path := File content]> (fs w))
                          (emit (EvGet (img_image_url image))
                             (tick (recorded row rows w)))))).
  { subst out. rewrite (process_image_unfold _ _ _ _ _ _ rows Hcsv). fold path row.
    unfold is_file. rewrite Hstat.
    unfold bind at 1. unfold download. unfold bind at 1.
    unfold requests_get. rewrite clock_recorded, Hnet.
    destruct content as [|b content]; [congruence|]. cbn [length Nat.ltb Nat.leb].
    unfold write_wb. rewrite create_file_new; [reflexivity | exact Hpath | |];
      cbn [fs emit tick]; now rewrite fs_recorded. }
  rewrite E. cbn [fst snd]. change (download_file row) with path.
  cbn [output_csv fs clock emit set_fs tick recorded set_output_csv].
  repeat split.
  unfold is_file. now rewrite (stat_insert_new _ _ _ Hstat Hpath).
Qed.

Lemma new_image_is_stored_witness :
  let image := mkImage "http://img/ccc" "http://site/c" in
  let row := row_of Scenario.digest "puppy" (0 + 1) image in
  let out := process_image Scenario.digest Scenario.web "puppy" image 0
                           Scenario.midrun in
  fst out = Ok (0 + 1) /\
  output_csv (snd out) = Some ([] ++ [row]) /\
  fs (snd out) = <[download_file row := File [Byte.xff]]> (fs Scenario.midrun) /\
  is_file (fs (snd out)) (download_file row) = true /\
  clock (snd out) = S (clock Scenario.midrun).
Proof.
  apply (new_image_is_stored Scenario.digest Scenario.web "puppy"
           (mkImage "http://img/ccc" "http://site/c") 0 Scenario.midrun []
           [Byte.xff]).
  - reflexivity.
  - vm_compute. reflexivity.
  - vm_compute. reflexivity.
  - reflexivity.
  - discriminate.
Defined.

(** ** The records of a page *)



(** The rows of the page with the link that is not ASCII. *)
Example rows_of_a_link_that_is_not_ascii :
  map image_info_url
      (rows_written
         (snd (process_page Scenario.digest Scenario.web "puppy" 2 Accented.page
                            Scenario.midrun)))
  = ["http://site/u"; "http://site/a"].
Proof. vm_compute. reflexivity. Qed.
